(** * ToxEcology intervention matcher: a shallow embedding and its properties

    The development follows [intervention_matcher.py]:
    Python [str] values are 8-bit [string]s (the ASCII fragment is modelled
    exactly, bytes above 127 are treated as uncased, non-blank characters),
    numbers coming from the record store are exact rationals [Q] (every
    binary float and every integer is one) and arithmetic on them is exact,
    which is what Python computes as long as its float operations do not
    round ([Double] has the float computation of the priority line),
    dictionaries keyed by column or
    domain name are [gmap string _], and the ordered [domain_map] literal is
    an association list. *)

From Stdlib Require Import ZArith QArith String Ascii List Lia DecimalString.
From Stdlib Require PrimFloat FloatOps SpecFloat Uint63.
From stdpp Require Import base gmap strings list sorting.

Local Open Scope Z_scope.

(** ** Python string primitives *)

Module PyStr.

Definition code (c : ascii) : N := N_of_ascii c.

Definition is_upper (c : ascii) : bool := ((65 <=? code c) && (code c <=? 90))%N.
Definition is_lower (c : ascii) : bool := ((97 <=? code c) && (code c <=? 122))%N.
Definition is_cased (c : ascii) : bool := is_upper c || is_lower c.

(** [str.isspace] on the ASCII range: TAB..CR, FS..US and the blank. *)
Definition is_space (c : ascii) : bool :=
  (((9 <=? code c) && (code c <=? 13)) || ((28 <=? code c) && (code c <=? 32)))%N.

Definition lower_char (c : ascii) : ascii :=
  if is_upper c then ascii_of_N (code c + 32) else c.
Definition upper_char (c : ascii) : ascii :=
  if is_lower c then ascii_of_N (code c - 32) else c.

Fixpoint map_chars (f : ascii -> ascii) (s : string) : string :=
  match s with
  | EmptyString => EmptyString
  | String c s' => String (f c) (map_chars f s')
  end.

(** [s.lower()] *)
Definition lower (s : string) : string := map_chars lower_char s.

(** [s.replace(a, b)] for one-character [a] and [b]. *)
Definition replace (a b : ascii) (s : string) : string :=
  map_chars (fun c => if Ascii.eqb c a then b else c) s.

(** [s.title()]: a cased character is upper-cased when the previous
    character is not cased and lower-cased otherwise. *)
Fixpoint title_from (prev_cased : bool) (s : string) : string :=
  match s with
  | EmptyString => EmptyString
  | String c s' =>
      if is_cased c
      then String (if prev_cased then lower_char c else upper_char c) (title_from true s')
      else String c (title_from false s')
  end.
Definition title (s : string) : string := title_from false s.

(** [kw in s] *)
Fixpoint contains (kw s : string) : bool :=
  String.prefix kw s
  || match s with
     | EmptyString => false
     | String _ s' => contains kw s'
     end.

(** [s.split()]: the maximal runs of non-blank characters, in order. *)
Fixpoint split (s : string) : list string :=
  match s with
  | EmptyString => []
  | String c s' =>
      if is_space c then split s'
      else match s' with
           | EmptyString => [String c EmptyString]
           | String c' _ =>
               if is_space c' then String c EmptyString :: split s'
               else match split s' with
                    | w :: ws => String c w :: ws
                    | [] => [String c EmptyString]
                    end
           end
  end.

(** Truthiness of a [str]. *)
Definition nonempty (s : string) : bool :=
  match s with EmptyString => false | _ => true end.

Definition decimal (n : Z) : string := NilZero.string_of_uint (N.to_uint (Z.to_N n)).

(** Tenths of [q], rounded to the nearest integer, ties to even: the
    digits that [format(q, '.1f')] prints for the exact value [q]. *)
Definition round_tenths (q : Q) : Z :=
  let a := Z.abs (Qnum q) * 10 in
  let d := Zpos (Qden q) in
  let lo := a / d in
  let r := a mod d in
  if 2 * r <? d then lo
  else if d <? 2 * r then lo + 1
  else if Z.even lo then lo else lo + 1.

(** [f"{q:.1f}"] *)
Definition format_1f (q : Q) : string :=
  let t := round_tenths q in
  (if Qnum q <? 0 then "-" else "")
    +:+ decimal (t / 10) +:+ "." +:+ decimal (t mod 10).

End PyStr.

(** ** Module-level configuration *)

(** The globals the matcher's module defines.  They are looked up when a
    method runs, so the model passes them as an environment. *)
Record module_globals := {
  HIGH_SCORE_THRESHOLD : Q;
  MODERATE_SCORE_THRESHOLD : Q;
  MAX_INTERVENTIONS_PER_PATIENT : nat;
  SOURCE_CATEGORY_KEYWORDS : list (string * list string);
}.

Definition globals : module_globals := {|
  HIGH_SCORE_THRESHOLD := 7 # 1;
  MODERATE_SCORE_THRESHOLD := 5 # 1;
  MAX_INTERVENTIONS_PER_PATIENT := 10;
  SOURCE_CATEGORY_KEYWORDS := [
    ("rice", ["rice"; "brown rice"; "rice servings"]);
    ("well_water", ["well water"; "unfiltered water"; "private well"]);
    ("produce_arsenic", ["leafy greens"; "spinach"; "kale"]);
    ("pressure_treated_wood", ["deck"; "playground"; "treated wood"]);
    ("high_mercury_fish", ["tuna"; "swordfish"; "king mackerel"; "fish servings"]);
    ("dental_amalgam", ["amalgam"; "silver fillings"; "dental"]);
    ("pre_1978_home", ["home built"; "old home"; "lead paint"]);
    ("lead_pipes", ["lead pipes"; "old pipes"; "lead water"]);
    ("lead_cookware", ["ceramic"; "pottery"; "glazed"]);
    ("occupational_lead", ["construction"; "battery"; "welding"]);
    ("smoking", ["smoking"; "cigarettes"; "tobacco"]);
    ("shellfish", ["oysters"; "mussels"; "scallops"; "shellfish"]);
    ("nonstick_cookware", ["nonstick"; "teflon"; "cookware"]);
    ("pfas_water", ["pfas water"; "contaminated water"]);
    ("fast_food", ["fast food"; "takeout"; "food packaging"]);
    ("coffee", ["coffee"]);
    ("nuts", ["nuts"; "peanuts"; "peanut butter"]);
    ("grains", ["corn"; "wheat"; "grains"]);
    ("visible_mold", ["mold"; "water damage"; "musty"]);
    ("hvac", ["hvac"; "ducts"; "air conditioning"]);
    ("humidity", ["humidity"; "basement"; "damp"]);
    ("cleaning_products", ["cleaning"; "cleaners"; "disinfectants"]);
    ("new_furniture", ["new furniture"; "new mattress"; "off-gassing"]);
    ("air_fresheners", ["air freshener"; "scented candles"; "fragrance"]);
    ("produce_pesticides", ["produce"; "dirty dozen"; "non-organic"]);
    ("lawn_pesticides", ["lawn"; "herbicide"; "weed killer"]);
    ("personal_care", ["personal care"; "fragrance"; "perfume"; "cologne"]);
    ("plastic_food", ["plastic"; "food storage"; "microwave"])
  ];
|}.

(** The same module with another keyword table. *)
Definition with_keywords (table : list (string * list string)) (g : module_globals)
  : module_globals :=
  {| HIGH_SCORE_THRESHOLD := HIGH_SCORE_THRESHOLD g;
     MODERATE_SCORE_THRESHOLD := MODERATE_SCORE_THRESHOLD g;
     MAX_INTERVENTIONS_PER_PATIENT := MAX_INTERVENTIONS_PER_PATIENT g;
     SOURCE_CATEGORY_KEYWORDS := table |}.

(** ** Data model *)

(** A row of the record store.  Columns are typed: number columns and text
    columns; an empty cell is absent from its map. *)
Record airtable_fields := {
  numbers : gmap string Q;
  texts : gmap string string;
}.

Record airtable_record := {
  id : string;
  fields : airtable_fields;
}.

(** The dictionary [_load_interventions] builds for a catalog row.
    [None] stands for Python's [None] of a [fields.get] without default.
    [priority_rank] is the number cell as it comes (default 5), with its
    exact value.  The priorities below are computed exactly in [Q]: this is
    what Python computes whenever its float operations are exact, as they
    are for the ranks of [exact_in_doubles] below; [Double] holds the float
    computation itself. *)
Record intervention := {
  record_id : string;
  intervention_id : option string;
  domain : option string;
  source_category : string;
  intervention_name : option string;
  priority_rank : Q;
  difficulty_level : string;
  expected_reduction_percent : Q;
  estimated_cost : string;
}.

(** The dictionary [_get_unprocessed_scores] builds for a score row. *)
Record score_data := {
  sd_record_id : string;
  patient_id : option string;
  report_id : string;
  survey_id : option string;
  scores : gmap string Q;
  primary_sources : gmap string string;
  confidence : gmap string string;
}.

(** An element of [matches]: [(intervention, final_priority, reason)]. *)
Definition match_t : Type := intervention * Q * string.

Definition m_intervention (m : match_t) : intervention := m.1.1.
Definition m_priority (m : match_t) : Q := m.1.2.
Definition m_reason (m : match_t) : string := m.2.

(** [dict.get(key, default)] *)
Definition get {V} (d : gmap string V) (key : string) (dflt : V) : V :=
  default dflt (d !! key).

(** ** [_get_unprocessed_scores] *)

Definition score_columns : list (string * string) := [
  ("arsenic", "arsenic_source_score");
  ("mercury", "mercury_source_score");
  ("lead", "lead_source_score");
  ("cadmium", "cadmium_source_score");
  ("pfas", "pfas_source_score");
  ("phthalates", "phthalates_source_score");
  ("pesticides", "pesticides_source_score");
  ("vocs", "vocs_source_score");
  ("parabens", "parabens_source_score");
  ("mycotoxins_food", "mycotoxins_food_score");
  ("mycotoxins_water_damage", "mycotoxins_water_damage_score")
].

Definition primary_source_columns : list (string * string) := [
  ("arsenic", "arsenic_primary_source");
  ("mercury", "mercury_primary_source");
  ("lead", "lead_primary_source");
  ("cadmium", "cadmium_primary_source");
  ("pfas", "pfas_primary_source");
  ("phthalates", "phthalates_primary_source");
  ("pesticides", "pesticides_primary_source");
  ("vocs", "vocs_primary_source");
  ("parabens", "parabens_primary_source");
  ("mycotoxins_food", "mycotoxins_food_primary_source");
  ("mycotoxins_water_damage", "mycotoxins_water_damage_primary_source")
].

Definition confidence_columns : list (string * string) := [
  ("arsenic", "arsenic_confidence");
  ("mercury", "mercury_confidence");
  ("lead", "lead_confidence");
  ("cadmium", "cadmium_confidence");
  ("pfas", "pfas_confidence");
  ("phthalates", "phthalates_confidence");
  ("pesticides", "pesticides_confidence");
  ("vocs", "vocs_confidence")
].

(** A dictionary literal [{key: cells.get(column, dflt), ...}]. *)
Definition dict_of_columns {V} (cells : gmap string V) (dflt : V)
    (columns : list (string * string)) : gmap string V :=
  list_to_map (map (fun kc => (kc.1, get cells kc.2 dflt)) columns).

Definition processed_report_ids (existing_assignments : list airtable_record)
  : gset string :=
  list_to_set (omap (fun a => texts (fields a) !! "report_id") existing_assignments).

Definition unprocessed_entry (score_record : airtable_record) (rid : string)
  : score_data :=
  let f := fields score_record in
  {| sd_record_id := id score_record;
     patient_id := texts f !! "patient_id";
     report_id := rid;
     survey_id := texts f !! "survey_id";
     scores := dict_of_columns (numbers f) (0 # 1) score_columns;
     primary_sources := dict_of_columns (texts f) "" primary_source_columns;
     confidence := dict_of_columns (texts f) "low" confidence_columns |}.

Definition _get_unprocessed_scores (all_scores existing_assignments : list airtable_record)
  : list score_data :=
  let processed := processed_report_ids existing_assignments in
  omap (fun score_record =>
          match texts (fields score_record) !! "report_id" with
          | Some rid =>
              if PyStr.nonempty rid && bool_decide (rid ∉ processed)
              then Some (unprocessed_entry score_record rid)
              else None
          | None => None
          end) all_scores.

(** ** [_match_interventions_for_patient] *)

(** The [domain_map] literal, in its iteration order. *)
Definition domain_map : list (string * string) := [
  ("arsenic", "Arsenic");
  ("mercury", "Mercury");
  ("lead", "Lead");
  ("cadmium", "Cadmium");
  ("pfas", "PFAS");
  ("phthalates", "Phthalates");
  ("pesticides", "Pesticides");
  ("vocs", "VOCs");
  ("parabens", "Parabens");
  ("mycotoxins_food", "Mycotoxins-Food");
  ("mycotoxins_water_damage", "Mycotoxins-WaterDamage")
].

(** [score < bound] and [score >= bound] on exact values. *)
Definition Qltb (x y : Q) : bool := negb (Qle_bool y x).
Definition Qgeb (x y : Q) : bool := Qle_bool y x.

Definition base_priority (g : module_globals) (score : Q) (conf : string) : Z :=
  if Qgeb score (HIGH_SCORE_THRESHOLD g) then
    if String.eqb conf "high" then 1
    else if String.eqb conf "moderate" then 2
    else 3
  else 3.

(** [intervention['domain'] in [domain_name, domain_name.replace('-', ' ')]] *)
Definition domain_accepts (domain_name : string) (d : option string) : bool :=
  match d with
  | Some s => String.eqb s domain_name || String.eqb s (PyStr.replace "-" " " domain_name)
  | None => false
  end.

(** [relevance_score] for a lower-cased [source_category]. *)
Definition relevance_score (source_category primary_source : string) : Z :=
  if PyStr.nonempty source_category
     && existsb (fun keyword => PyStr.contains keyword primary_source)
                (PyStr.split source_category)
  then 0 + 100
  else if negb (PyStr.nonempty source_category) then 0 + 50
  else 0.

Definition final_priority (base_priority : Z) (intervention_priority : Q)
    (relevance : Z) : Q :=
  (inject_Z base_priority + (intervention_priority - 1) - (inject_Z relevance / (50 # 1)))%Q.

(** The same line as Python evaluates it when [priority_rank] is a float:
    every operation is a binary64 operation, the two integers being
    converted first. *)
Module Double.

Definition of_Z (n : Z) : PrimFloat.float := PrimFloat.of_uint63 (Uint63.of_Z n).

Definition final_priority (base_priority : Z) (intervention_priority : PrimFloat.float)
    (relevance : Z) : PrimFloat.float :=
  PrimFloat.sub
    (PrimFloat.add (of_Z base_priority)
       (PrimFloat.sub intervention_priority (of_Z 1)))
    (PrimFloat.div (of_Z relevance) (of_Z 50)).

(** The exact value of a finite float. *)
Definition value (f : PrimFloat.float) : option Q :=
  match FloatOps.Prim2SF f with
  | SpecFloat.S754_zero _ => Some (0 # 1)
  | SpecFloat.S754_finite s m e =>
      let n := if s then Z.neg m else Z.pos m in
      Some (if 0 <=? e then inject_Z (n * 2 ^ e) else n # Z.to_pos (2 ^ (- e)))
  | _ => None
  end.

(** The float nearest to [n / d], as a number cell [n/d] is read. *)
Definition cell (n d : Z) : PrimFloat.float := PrimFloat.div (of_Z n) (of_Z d).

End Double.

Definition reason_string (domain_name : string) (score : Q) (conf source_category : string)
  : string :=
  let reason := PyStr.replace "-" " " domain_name +:+ " score: "
                  +:+ PyStr.format_1f score +:+ "/10" in
  let reason := if negb (String.eqb conf "low")
                then reason +:+ " (" +:+ conf +:+ " confidence)" else reason in
  if PyStr.nonempty source_category
  then reason +:+ " - Source: " +:+ PyStr.title (PyStr.replace "_" " " source_category)
  else reason.

(** One turn of the inner loop: [None] is a [continue]. *)
Definition match_intervention (domain_name : string) (score : Q)
    (primary_source conf : string) (base : Z) (i : intervention) : option match_t :=
  if negb (domain_accepts domain_name (domain i)) then None
  else
    let source_category := PyStr.lower (source_category i) in
    let intervention_priority := priority_rank i in
    let relevance := relevance_score source_category primary_source in
    if relevance =? 0 then None
    else Some (i,
               final_priority base intervention_priority relevance,
               reason_string domain_name score conf source_category).

(** One turn of the outer loop: what a domain appends to [matches]. *)
Definition match_domain (g : module_globals) (interventions : list intervention)
    (sd : score_data) (entry : string * string) : list match_t :=
  let '(domain_key, domain_name) := entry in
  let score := get (scores sd) domain_key (0 # 1) in
  if Qltb score (MODERATE_SCORE_THRESHOLD g) then []
  else
    let primary_source := PyStr.lower (get (primary_sources sd) domain_key "") in
    let conf := PyStr.lower (get (confidence sd) domain_key "low") in
    let base := base_priority g score conf in
    omap (match_intervention domain_name score primary_source conf base) interventions.

(** [matches] when the outer loop ends. *)
Definition collect_matches (g : module_globals) (interventions : list intervention)
    (sd : score_data) : list match_t :=
  flat_map (match_domain g interventions sd) domain_map.

(** [list.sort(key=...)] is stable: an element goes in front of the first
    element whose key is not smaller.  The result of a stable sort is
    unique ([sort_by_unique] below), so this insertion sort computes what
    the built-in sort does. *)
Section StableSort.
Context {A : Type} (key : A -> Q).

Fixpoint insert_by (x : A) (l : list A) : list A :=
  match l with
  | [] => [x]
  | y :: l' => if Qle_bool (key x) (key y) then x :: y :: l' else y :: insert_by x l'
  end.

Fixpoint sort_by (l : list A) : list A :=
  match l with
  | [] => []
  | x :: l' => insert_by x (sort_by l')
  end.
End StableSort.

Definition _match_interventions_for_patient (g : module_globals)
    (interventions : list intervention) (sd : score_data) : list match_t :=
  let matches := collect_matches g interventions sd in
  let matches := sort_by m_priority matches in
  take (MAX_INTERVENTIONS_PER_PATIENT g) matches.

(** ** [_create_intervention_assignments] *)

Record assignment_data := {
  a_patient_id : option string;
  a_report_id : string;
  a_intervention_id : string;
  a_assigned_date : string;
  a_priority : Z;
  a_status : string;
  a_assigned_by : string;
  a_practitioner_notes : string;
}.

Definition priority_tier (idx : Z) : Z :=
  if idx <=? 3 then 1 else if idx <=? 6 then 2 else 3.

Definition make_assignment (pid : option string) (rid assigned_date : string)
    (idx : Z) (m : match_t) : assignment_data :=
  {| a_patient_id := pid;
     a_report_id := rid;
     a_intervention_id := record_id (m_intervention m);
     a_assigned_date := assigned_date;
     a_priority := priority_tier idx;
     a_status := "Not Started";
     a_assigned_by := "Automated";
     a_practitioner_notes := m_reason m |}.

(** The loop over [enumerate(matched_interventions, idx)].  The state is the
    assignments table; [create] is the record store's write, which either
    appends the row or raises ([false]), in which case the row is skipped. *)
Section Sink.
Variable create : list assignment_data -> assignment_data -> bool.

Fixpoint create_from (pid : option string) (rid assigned_date : string) (idx : Z)
    (matched : list match_t) (table : list assignment_data) (created_count : Z)
  : Z * list assignment_data :=
  match matched with
  | [] => (created_count, table)
  | m :: rest =>
      let a := make_assignment pid rid assigned_date idx m in
      if create table a
      then create_from pid rid assigned_date (idx + 1) rest (table ++ [a]) (created_count + 1)
      else create_from pid rid assigned_date (idx + 1) rest table created_count
  end.

Definition _create_intervention_assignments (pid : option string)
    (rid assigned_date : string) (matched : list match_t)
    (table : list assignment_data) : Z * list assignment_data :=
  create_from pid rid assigned_date 1 matched table 0.
End Sink.

(** The rows handed to the record store, in order, whether or not the write
    succeeds. *)
Definition requested_from (pid : option string) (rid assigned_date : string)
    (idx : Z) (matched : list match_t) : list assignment_data :=
  imap (fun i m => make_assignment pid rid assigned_date (idx + Z.of_nat i) m) matched.

Definition requested_assignments (pid : option string) (rid assigned_date : string)
    (matched : list match_t) : list assignment_data :=
  requested_from pid rid assigned_date 1 matched.

(** ** [_load_interventions] *)

(** A row of the interventions table: text columns and the number columns
    [priority_rank] and [expected_reduction_percent]. *)
Record catalog_fields := {
  c_texts : gmap string string;
  c_numbers : gmap string Q;
}.

Record catalog_record := {
  c_id : string;
  c_fields : catalog_fields;
}.

Definition _load_interventions (records : list catalog_record) : list intervention :=
  map (fun record =>
         let fields := c_fields record in
         {| record_id := c_id record;
            intervention_id := c_texts fields !! "intervention_id";
            domain := c_texts fields !! "domain";
            source_category := get (c_texts fields) "source_category" "";
            intervention_name := c_texts fields !! "intervention_name";
            priority_rank := get (c_numbers fields) "priority_rank" (5 # 1);
            difficulty_level := get (c_texts fields) "difficulty_level" "Moderate";
            expected_reduction_percent :=
              get (c_numbers fields) "expected_reduction_percent" (0 # 1);
            estimated_cost := get (c_texts fields) "estimated_cost" "$51-200" |})
      records.

(** ** [process_all_patients] *)

(** The loop over the unprocessed score records.  [table] holds the rows
    written so far, [now k] is the clock reading when the [k]-th record is
    handled, and the result is [total_assignments_created] with the rows
    written.  A record without candidates is skipped. *)
Section Process.
Variable create : list assignment_data -> assignment_data -> bool.
Variable now : nat -> string.

Fixpoint process_from (g : module_globals) (interventions : list intervention)
    (k : nat) (unprocessed_scores : list score_data)
    (table : list assignment_data) (total_assignments_created : Z)
  : Z * list assignment_data :=
  match unprocessed_scores with
  | [] => (total_assignments_created, table)
  | sd :: rest =>
      match _match_interventions_for_patient g interventions sd with
      | [] => process_from g interventions (S k) rest table total_assignments_created
      | matched_interventions =>
          let r := _create_intervention_assignments create (patient_id sd) (report_id sd)
                     (now k) matched_interventions table in
          process_from g interventions (S k) rest r.2 (total_assignments_created + r.1)
      end
  end.

Definition process_all_patients (g : module_globals) (interventions : list intervention)
    (all_scores existing_assignments : list airtable_record)
  : Z * list assignment_data :=
  let unprocessed_scores := _get_unprocessed_scores all_scores existing_assignments in
  match unprocessed_scores with
  | [] => (0, [])
  | _ => process_from g interventions 0 unprocessed_scores [] 0
  end.
End Process.

(** * Specification vocabulary *)

(** ** Strings *)

Module PyStrSpec.
Import PyStr.

(** [kw] occurs in [s]. *)
Definition Substring (kw s : string) : Prop :=
  ∃ pre post, s = pre +:+ kw +:+ post.

Fixpoint all_chars (p : ascii → bool) (s : string) : bool :=
  match s with
  | EmptyString => true
  | String c s' => p c && all_chars p s'
  end.

(** A word: a non-empty string without blanks. *)
Definition word (w : string) : Prop :=
  w ≠ "" ∧ all_chars (fun c => negb (is_space c)) w = true.

(** The text before a keyword is empty or ends with a blank, the text
    after it is empty or starts with one. *)
Definition ends_blank (pre : string) : Prop :=
  pre = "" ∨ ∃ p c, pre = p +:+ String c "" ∧ is_space c = true.

Definition starts_blank (post : string) : Prop :=
  post = "" ∨ ∃ c p, post = String c p ∧ is_space c = true.

(** [w] is one of the blank-separated keywords of [s]: a maximal run of
    non-blank characters. *)
Definition Keyword (w s : string) : Prop :=
  word w ∧ ∃ pre post, s = pre +:+ w +:+ post ∧ ends_blank pre ∧ starts_blank post.

(** The shape of a string and of its list of words. *)
Inductive Tokens : string → list string → Prop :=
| Tokens_nil : Tokens "" []
| Tokens_blank c s ws :
    is_space c = true → Tokens s ws → Tokens (String c s) ws
| Tokens_word w s ws :
    word w → starts_blank s → Tokens s ws → Tokens (w +:+ s) (w :: ws).

(** The character maps of [replace "_" " "] and [replace "-" " "]. *)
Definition unscore (c : ascii) : ascii := if Ascii.eqb c "_" then " "%char else c.

Definition dehyphen (c : ascii) : ascii := if Ascii.eqb c "-" then " "%char else c.

(** All strings that [replace "-" " "] sends to [t]. *)
Fixpoint dehyphen_preimages (t : string) : list string :=
  match t with
  | EmptyString => [EmptyString]
  | String d t' =>
      let rest := dehyphen_preimages t' in
      if Ascii.eqb d " " then map (String " ") rest ++ map (String "-") rest
      else if Ascii.eqb d "-" then []
      else map (String d) rest
  end%list.

End PyStrSpec.

(** ** Matcher *)

(** Ascending order of the sort key, and the elements of one key value. *)
Definition key_le {A} (key : A -> Q) (a b : A) : Prop := (key a <= key b)%Q.
Definition same_key {A} (key : A -> Q) (k : Q) (a : A) : Prop := (key a == k)%Q.

#[local] Instance same_key_decision {A} (key : A -> Q) k a : Decision (same_key key k a) :=
  Qeq_dec _ _.

(** The values the outer loop binds for a domain key. *)
Definition domain_score (sd : score_data) (domain_key : string) : Q :=
  get (scores sd) domain_key (0 # 1).
Definition domain_primary_source (sd : score_data) (domain_key : string) : string :=
  PyStr.lower (get (primary_sources sd) domain_key "").
Definition domain_conf (sd : score_data) (domain_key : string) : string :=
  PyStr.lower (get (confidence sd) domain_key "low").
Definition domain_base_priority (g : module_globals) (sd : score_data)
    (domain_key : string) : Z :=
  base_priority g (domain_score sd domain_key) (domain_conf sd domain_key).

(** The candidate the inner loop appends for an accepted entry. *)
Definition candidate (g : module_globals) (sd : score_data)
    (domain_key domain_name : string) (i : intervention) : match_t :=
  let sc := PyStr.lower (source_category i) in
  (i,
   final_priority (domain_base_priority g sd domain_key) (priority_rank i)
     (relevance_score sc (domain_primary_source sd domain_key)),
   reason_string domain_name (domain_score sd domain_key) (domain_conf sd domain_key) sc).

(** A domain name with its hyphens read as spaces. *)
Definition normalize (s : string) : string := PyStr.replace "-" " " s.

(** The start of every reason string built for a domain. *)
Definition reason_label (domain_name : string) : string :=
  normalize domain_name +:+ " score: ".



(** The justification string, as the specification words it: the domain
    name with hyphens as spaces, the score with one decimal, the confidence
    unless it is low, and the title-cased source category when there is
    one.  [conf] is the confidence the matcher reads (lower-cased), and
    [source_category] the catalog field as stored. *)
Definition justification (domain_name : string) (score : Q)
    (conf source_category : string) : string :=
  normalize domain_name +:+ " score: " +:+ PyStr.format_1f score +:+ "/10"
  +:+ (if decide (conf = "low") then "" else " (" +:+ conf +:+ " confidence)")
  +:+ (if decide (source_category = "") then ""
       else " - Source: " +:+ PyStr.title (PyStr.replace "_" " " source_category)).

(** [m] carries the justification of its own domain and catalog entry: the
    domain accepts the entry and passes the gate. *)
Definition justified (g : module_globals) (cat : list intervention)
    (sd : score_data) (m : match_t) : Prop :=
  ∃ dk dn i,
    (dk, dn) ∈ domain_map ∧ i ∈ cat ∧ m_intervention m = i
    ∧ domain_accepts dn (domain i) = true
    ∧ (MODERATE_SCORE_THRESHOLD g <= domain_score sd dk)%Q
    ∧ m_reason m
      = justification dn (domain_score sd dk) (domain_conf sd dk) (source_category i).

(** ** Sample data *)

(** A catalog row as [_load_interventions] fills it when only these four
    columns are set. *)
Definition catalog_entry (rid dom sc : string) (rank : Q) : intervention :=
  {| record_id := rid; intervention_id := None; domain := Some dom;
     source_category := sc; intervention_name := None; priority_rank := rank;
     difficulty_level := "Moderate"; expected_reduction_percent := 0 # 1;
     estimated_cost := "$51-200" |}.

(** A score row with one scored domain. *)
Definition score_row (rid : string) (score_column : string) (score : Q)
    (text_cells : list (string * string)) : airtable_record :=
  {| id := "rec" +:+ rid;
     fields := {| numbers := {[ score_column := score ]};
                  texts := <["report_id" := rid]> (list_to_map text_cells) |} |}.

(** The scenario of the specification: arsenic 8.0, high confidence, rice. *)
Definition rice_row : airtable_record :=
  score_row "R1" "arsenic_source_score" (8 # 1)
    [("arsenic_primary_source", "I eat rice daily"); ("arsenic_confidence", "high")].
Definition rice_entry : intervention := catalog_entry "i1" "Arsenic" "rice" 2.
Definition rice_data : score_data := unprocessed_entry rice_row "R1".

(** A row whose arsenic score is below the gate. *)
Definition low_row : airtable_record :=
  score_row "R2" "arsenic_source_score" (49 # 10)
    [("arsenic_primary_source", "I eat rice daily"); ("arsenic_confidence", "high")].
Definition low_data : score_data := unprocessed_entry low_row "R2".

(** A mycotoxin row with a high score and a high confidence cell. *)
Definition myco_row : airtable_record :=
  score_row "R3" "mycotoxins_food_score" (8 # 1)
    [("mycotoxins_food_primary_source", "coffee");
     ("mycotoxins_food_confidence", "high")].
Definition myco_entry : intervention := catalog_entry "i2" "Mycotoxins-Food" "" 1.
Definition myco_data : score_data := unprocessed_entry myco_row "R3".

(** A patient who eats tuna, and no rice. *)
Definition tuna_row : airtable_record :=
  score_row "R4" "arsenic_source_score" (8 # 1)
    [("arsenic_primary_source", "Tuna twice a week"); ("arsenic_confidence", "high")].
Definition tuna_data : score_data := unprocessed_entry tuna_row "R4".

(** The most urgent case: rank 1 and a keyword match. *)
Definition urgent_entry : intervention := catalog_entry "i0" "Arsenic" "rice" 1.
Definition urgent_candidate : match_t :=
  candidate globals rice_data "arsenic" "Arsenic" urgent_entry.

(** The candidate of the rice scenario. *)
Definition rice_candidate : match_t :=
  candidate globals rice_data "arsenic" "Arsenic" rice_entry.

(** Eleven generic arsenic entries of ranks 1 to 11, most urgent last. *)
Definition crowded_catalog : list intervention :=
  map (fun k => catalog_entry (PyStr.decimal k) "Arsenic" "" (inject_Z k))
      [11; 10; 9; 8; 7; 6; 5; 4; 3; 2; 1].

(** A catalog row with only a domain cell, and one with no cell at all. *)
Definition bare_record : catalog_record :=
  {| c_id := "recA";
     c_fields := {| c_texts := {[ "domain" := "Arsenic" ]}; c_numbers := ∅ |} |}.
Definition blank_record : catalog_record :=
  {| c_id := "recB";
     c_fields := {| c_texts := ∅; c_numbers := ∅ |} |}.

(** An assignment row of the rice report, as the store returns it. *)
Definition rice_assignment : airtable_record :=
  {| id := "asg1";
     fields := {| numbers := {[ "priority" := 1 # 1 ]};
                  texts := {[ "report_id" := "R1" ]} |} |}.

(** The record the store returns for a written row: an identifier of its
    own and the fields it was given. *)
Definition stored_record (a : assignment_data) : airtable_record :=
  {| id := "asg-" +:+ a_report_id a +:+ "-" +:+ a_intervention_id a;
     fields :=
       {| numbers := {[ "priority" := inject_Z (a_priority a) ]};
          texts :=
            list_to_map
              ([("report_id", a_report_id a);
                ("intervention_id", a_intervention_id a);
                ("assigned_date", a_assigned_date a);
                ("status", a_status a);
                ("assigned_by", a_assigned_by a);
                ("practitioner_notes", a_practitioner_notes a)]
               ++ match a_patient_id a with
                  | Some pid => [("patient_id", pid)]
                  | None => []
                  end) |} |}.

(** A patient with a high arsenic score and no primary-source text, and a
    generic arsenic entry. *)
Definition silent_row : airtable_record :=
  score_row "R6" "arsenic_source_score" (8 # 1) [].
Definition silent_data : score_data := unprocessed_entry silent_row "R6".
Definition generic_entry : intervention := catalog_entry "g0" "Arsenic" "" 1.

(** An arsenic entry whose source category is one blank. *)
Definition blank_category_entry : intervention := catalog_entry "b0" "Arsenic" " " 1.


(** A hyphened domain, an underscored category and a score on a tie. *)
Definition toast_row : airtable_record :=
  score_row "R7" "mycotoxins_food_score" (625 # 100)
    [("mycotoxins_food_primary_source", "Peanut_Butter on toast")].
Definition toast_entry : intervention :=
  catalog_entry "t0" "Mycotoxins-Food" "peanut_butter" 2.
Definition toast_data : score_data := unprocessed_entry toast_row "R7".

(** * Properties *)

(** ** Python string primitives: examples *)

Example lower_ex : PyStr.lower "I eat Rice DAILY" = "i eat rice daily".
Proof. reflexivity. Qed.
Example title_ex : PyStr.title (PyStr.replace "_" " " "pre_1978_home") = "Pre 1978 Home".
Proof. reflexivity. Qed.
Example split_ex : PyStr.split "  well   water rice " = ["well"; "water"; "rice"].
Proof. reflexivity. Qed.
Example contains_ex : PyStr.contains "rice" "i eat rice daily" = true.
Proof. reflexivity. Qed.
Example format_ex1 : PyStr.format_1f (8 # 1) = "8.0".
Proof. reflexivity. Qed.
Example format_ex2 : PyStr.format_1f (25 # 100) = "0.2".
Proof. reflexivity. Qed.
Example format_ex3 : PyStr.format_1f (999 # 100) = "10.0".
Proof. reflexivity. Qed.

(** ** The stable sort *)

Section StableSortFacts.
Context {A : Type} (key : A -> Q).

Lemma insert_by_Permutation x l : insert_by key x l ≡ₚ x :: l.
Proof.
  induction l as [|y l IH]; simpl; [done|].
  destruct (Qle_bool _ _); [done|].
  rewrite IH. apply Permutation_swap.
Qed.

Lemma sort_by_Permutation l : sort_by key l ≡ₚ l.
Proof.
  induction l as [|x l IH]; simpl; [done|].
  by rewrite insert_by_Permutation, IH.
Qed.

Lemma sort_by_length l : length (sort_by key l) = length l.
Proof. by rewrite sort_by_Permutation. Qed.

Lemma elem_of_sort_by x l : x ∈ sort_by key l ↔ x ∈ l.
Proof. by rewrite sort_by_Permutation. Qed.

Lemma insert_by_sorted x l :
  StronglySorted (key_le key) l → StronglySorted (key_le key) (insert_by key x l).
Proof.
  induction 1 as [|y l Hs IH Hall]; simpl.
  - repeat constructor.
  - destruct (Qle_bool (key x) (key y)) eqn:Hxy.
    + apply Qle_bool_iff in Hxy.
      constructor; [by constructor|].
      constructor; [done|].
      eapply Forall_impl; [exact Hall|].
      intros z Hz. unfold key_le in *. eapply Qle_trans; eauto.
    + constructor; [done|].
      rewrite insert_by_Permutation. constructor; [|done].
      unfold key_le.
      destruct (Qlt_le_dec (key y) (key x)) as [Hlt|Hle].
      * by apply Qlt_le_weak.
      * apply Qle_bool_iff in Hle. congruence.
Qed.

Lemma sort_by_sorted l : StronglySorted (key_le key) (sort_by key l).
Proof.
  induction l; simpl; [constructor|by apply insert_by_sorted].
Qed.

(** Stability: the elements of any one key keep their order. *)
Lemma insert_by_stable k x l :
  filter (same_key key k) (insert_by key x l) = filter (same_key key k) (x :: l).
Proof.
  induction l as [|y l IH]; simpl; [done|].
  destruct (Qle_bool (key x) (key y)) eqn:Hxy; [done|].
  rewrite filter_cons, IH, !filter_cons.
  destruct (decide (same_key key k x)) as [Hx|Hx]; [|done].
  destruct (decide (same_key key k y)) as [Hy|Hy]; [|done].
  exfalso. unfold same_key in *.
  assert (Qle_bool (key x) (key y) = true); [|congruence].
  apply Qle_bool_iff. rewrite Hx, Hy. apply Qle_refl.
Qed.

Lemma sort_by_stable k l :
  filter (same_key key k) (sort_by key l) = filter (same_key key k) l.
Proof.
  induction l as [|x l IH]; simpl; [done|].
  by rewrite insert_by_stable, !filter_cons, IH.
Qed.


(** A sorted list is determined by its runs of equal keys, so a stable
    sort has one possible result. *)
Lemma stable_sorted_unique l1 l2 :
  StronglySorted (key_le key) l1 → StronglySorted (key_le key) l2 →
  (∀ k, filter (same_key key k) l1 = filter (same_key key k) l2) →
  l1 = l2.
Proof.
  intros Hs1. revert l2. induction Hs1 as [|x l1 Hs1 IH Hall1]; intros l2 Hs2 Hf.
  - destruct l2 as [|y l2]; [done|].
    specialize (Hf (key y)). rewrite filter_nil, filter_cons in Hf.
    rewrite decide_True in Hf by (unfold same_key; reflexivity). done.
  - destruct Hs2 as [|y l2 Hs2 Hall2].
    { specialize (Hf (key x)). rewrite filter_nil, filter_cons in Hf.
      rewrite decide_True in Hf by (unfold same_key; reflexivity). done. }
    assert (key_le key y x) as Hyx.
    { pose proof (Hf (key x)) as Hx. rewrite (filter_cons _ x) in Hx.
      rewrite decide_True in Hx by (unfold same_key; reflexivity).
      assert (x ∈ filter (same_key key (key x)) (y :: l2)) as Hin
        by (rewrite <- Hx; left).
      apply list_elem_of_filter in Hin as [_ Hin].
      apply elem_of_cons in Hin as [->|Hin]; [unfold key_le; apply Qle_refl|].
      by apply (proj1 (Forall_forall _ _) Hall2). }
    assert (key_le key x y) as Hxy.
    { pose proof (Hf (key y)) as Hy. rewrite (filter_cons _ y) in Hy.
      rewrite decide_True in Hy by (unfold same_key; reflexivity).
      assert (y ∈ filter (same_key key (key y)) (x :: l1)) as Hin
        by (rewrite Hy; left).
      apply list_elem_of_filter in Hin as [_ Hin].
      apply elem_of_cons in Hin as [->|Hin]; [unfold key_le; apply Qle_refl|].
      by apply (proj1 (Forall_forall _ _) Hall1). }
    assert (key x == key y)%Q as Heq by (by apply Qle_antisym).
    pose proof (Hf (key x)) as Hx. rewrite !filter_cons in Hx.
    rewrite decide_True in Hx by (unfold same_key; reflexivity).
    rewrite decide_True in Hx by (unfold same_key; by symmetry).
    injection Hx as -> _. f_equal. apply IH; [done|].
    intros k. specialize (Hf k). rewrite !filter_cons in Hf.
    destruct (decide (same_key key k y)); [by injection Hf|done].
Qed.

(** Whatever stable sorting procedure the runtime uses, it returns
    [sort_by key l]. *)
Lemma sort_by_unique l l' :
  StronglySorted (key_le key) l' →
  (∀ k, filter (same_key key k) l' = filter (same_key key k) l) →
  l' = sort_by key l.
Proof.
  intros Hs Hf. apply stable_sorted_unique; [done|apply sort_by_sorted|].
  intros k. by rewrite Hf, sort_by_stable.
Qed.

End StableSortFacts.

(** ** Python string primitives: specifications *)

Module PyStrFacts.
Import PyStr PyStrSpec.

#[local] Arguments String.append !_ _ / : simpl nomatch.

Lemma append_nil_r s : s +:+ "" = s.
Proof. induction s; simpl; congruence. Qed.

Lemma append_assoc s1 s2 s3 : (s1 +:+ s2) +:+ s3 = s1 +:+ s2 +:+ s3.
Proof. induction s1; simpl; congruence. Qed.

(** *** Substring test *)

Lemma prefix_spec kw s : String.prefix kw s = true ↔ ∃ post, s = kw +:+ post.
Proof.
  revert s. induction kw as [|a kw IH]; intros s.
  - split; [intros _; by exists s|intros _; by destruct s].
  - destruct s as [|b s]; simpl.
    + split; [done|]. by intros [post ?].
    + destruct (ascii_dec a b) as [->|Hne].
      * rewrite IH. split; intros [post Hp]; exists post; congruence.
      * split; [done|]. intros [post Hp]. congruence.
Qed.

Lemma contains_spec kw s : contains kw s = true ↔ Substring kw s.
Proof.
  induction s as [|b s IH].
  - cbn [contains]. rewrite orb_false_r, prefix_spec. split.
    + intros [post Hp]. by exists "", post.
    + intros (pre & post & Hp). destruct pre; [by exists post|done].
  - cbn [contains]. rewrite orb_true_iff, prefix_spec, IH. split.
    + intros [[post Hp]|(pre & post & Hp)].
      * by exists "", post.
      * exists (String b pre), post. simpl. by rewrite Hp.
    + intros (pre & post & Hp). destruct pre as [|c pre]; simpl in Hp.
      * left. by exists post.
      * right. exists pre, post. congruence.
Qed.

(** *** Whitespace splitting *)

Lemma word_cons c w :
  word (String c w) ↔ is_space c = false ∧ (w = "" ∨ word w).
Proof.
  unfold word. simpl. rewrite andb_true_iff, negb_true_iff. split.
  - intros [_ [Hc Hw]]. split; [done|]. destruct w; [by left|by right].
  - intros [Hc [->|[_ Hw]]]; by repeat split.
Qed.

Lemma ends_blank_cons c pre :
  ends_blank (String c pre) ↔ (pre = "" ∧ is_space c = true) ∨ (pre ≠ "" ∧ ends_blank pre).
Proof.
  split.
  - intros [?|(p & c' & Hp & Hc')]; [done|].
    destruct p as [|b p]; simpl in Hp.
    + left. by simplify_eq.
    + right. simplify_eq. split; [by destruct p|]. right. by exists p, c'.
  - intros [[-> Hc]|[Hne [?|(p & c' & -> & Hc')]]]; [|done|].
    + right. by exists "", c.
    + right. by exists (String c p), c'.
Qed.

Lemma split_blank c s : is_space c = true → split (String c s) = split s.
Proof. intros Hc. cbn [split]. by rewrite Hc. Qed.

Lemma split_single c : is_space c = false → split (String c "") = [String c ""].
Proof. intros Hc. cbn [split]. by rewrite Hc. Qed.

Lemma split_nonblank_blank c c' s :
  is_space c = false → is_space c' = true →
  split (String c (String c' s)) = String c "" :: split (String c' s).
Proof. intros Hc Hc'. cbn [split]. by rewrite Hc, Hc'. Qed.

Lemma split_nonblank_nonblank c c' s :
  is_space c = false → is_space c' = false →
  split (String c (String c' s))
  = match split (String c' s) with
    | w :: ws => String c w :: ws
    | [] => [String c ""]
    end.
Proof. intros Hc Hc'. cbn [split]. by rewrite Hc, Hc'. Qed.

Lemma split_head_nonblank c s :
  is_space c = false → ∃ w ws, split (String c s) = String c w :: ws.
Proof.
  intros Hc. destruct s as [|c' s].
  - rewrite split_single by done. by eexists _, _.
  - destruct (is_space c') eqn:Hc'.
    + rewrite split_nonblank_blank by done. by eexists _, _.
    + rewrite split_nonblank_nonblank by done.
      destruct (split (String c' s)); by eexists _, _.
Qed.

Lemma split_app_blank pre rest :
  ends_blank pre → split (pre +:+ rest) = (split pre ++ split rest)%list.
Proof.
  induction pre as [|c pre IH]; [done|].
  intros Hb%ends_blank_cons.
  change (String c pre +:+ rest) with (String c (pre +:+ rest)).
  destruct (is_space c) eqn:Hc.
  - rewrite !split_blank by done.
    destruct Hb as [[-> _]|[_ Hb]]; [done|by apply IH].
  - destruct Hb as [[_ ?]|[Hne Hb]]; [congruence|].
    specialize (IH Hb). destruct pre as [|c' pre]; [done|].
    change (String c' pre +:+ rest) with (String c' (pre +:+ rest)) in *.
    destruct (is_space c') eqn:Hc'.
    + rewrite !split_nonblank_blank by done. by rewrite IH.
    + rewrite !split_nonblank_nonblank by done. rewrite IH.
      destruct (split_head_nonblank c' pre Hc') as (w & ws & ->). done.
Qed.

Lemma split_word w post :
  word w → starts_blank post → split (w +:+ post) = w :: split post.
Proof.
  intros Hw Hp. induction w as [|c w IH]; [by destruct Hw|].
  apply word_cons in Hw as [Hc Hw].
  change (String c w +:+ post) with (String c (w +:+ post)).
  destruct Hw as [->|Hw].
  - change ("" +:+ post) with post.
    destruct Hp as [->|(c' & p & -> & Hc')].
    + by rewrite split_single.
    + by rewrite split_nonblank_blank.
  - specialize (IH Hw). destruct w as [|c' w]; [by destruct Hw|].
    apply word_cons in Hw as [Hc' _].
    change (String c' w +:+ post) with (String c' (w +:+ post)) in *.
    rewrite split_nonblank_nonblank by done. by rewrite IH.
Qed.

Lemma Keyword_split w s : Keyword w s → w ∈ split s.
Proof.
  intros [Hw (pre & post & -> & Hpre & Hpost)].
  rewrite split_app_blank, split_word by done.
  apply elem_of_app. right. by left.
Qed.

Lemma split_Tokens s : Tokens s (split s).
Proof.
  induction s as [|c s IH]; [constructor|].
  destruct (is_space c) eqn:Hc.
  - rewrite split_blank by done. by constructor.
  - assert (word (String c "")) as Hw by (apply word_cons; auto).
    destruct s as [|c' s].
    + rewrite split_single by done.
      apply (Tokens_word (String c "") "" []); [done|by left|constructor].
    + destruct (is_space c') eqn:Hc'.
      * rewrite split_nonblank_blank by done.
        apply (Tokens_word (String c "") (String c' s)); [done| |done].
        right. by exists c', s.
      * rewrite split_nonblank_nonblank by done.
        inversion IH as [|? ? ? Hsp|w s1 ws Hw1 Hs1 Ht Heq]; [congruence|].
        apply (Tokens_word (String c w) s1 ws); [|done..].
        apply word_cons. auto.
Qed.

Lemma Tokens_Keyword s ws : Tokens s ws → ∀ w, w ∈ ws → Keyword w s.
Proof.
  induction 1 as [|c s ws Hc _ IH|w0 s ws Hw0 Hs _ IH]; intros w Hin.
  - by apply elem_of_nil in Hin.
  - destruct (IH w Hin) as [Hw (pre & post & -> & Hpre & Hpost)].
    split; [done|]. exists (String c pre), post. split; [done|]. split; [|done].
    apply ends_blank_cons. destruct pre; [by left|by right].
  - apply elem_of_cons in Hin as [->|Hin].
    + split; [done|]. exists "", s. repeat split; [by left|done].
    + destruct (IH w Hin) as [Hw (pre & post & -> & Hpre & Hpost)].
      split; [done|]. exists (w0 +:+ pre), post.
      split; [by rewrite append_assoc|]. split; [|done].
      destruct Hpre as [->|(p & c & -> & Hc)].
      * exfalso. destruct w as [|a w]; [by destruct Hw|].
        apply word_cons in Hw as [Ha _].
        destruct Hs as [?|(c & p & ? & Hc)]; simplify_eq/=. congruence.
      * right. exists (w0 +:+ p), c. by rewrite append_assoc.
Qed.

(** [split] returns exactly the blank-separated keywords. *)
Lemma elem_of_split w s : w ∈ split s ↔ Keyword w s.
Proof.
  split; [|apply Keyword_split]. apply Tokens_Keyword, split_Tokens.
Qed.

(** *** Case conversion *)

Lemma nonempty_map_chars f s : nonempty (map_chars f s) = nonempty s.
Proof. by destruct s. Qed.

Lemma nonempty_true s : nonempty s = true ↔ s ≠ "".
Proof. destruct s; simpl; split; congruence. Qed.

Lemma nonempty_false s : nonempty s = false ↔ s = "".
Proof. destruct s; simpl; split; congruence. Qed.

(** Lower-casing a character first changes nothing for [title]. *)
Lemma title_char_lower c :
  is_cased (unscore (lower_char c)) = is_cased (unscore c)
  ∧ lower_char (unscore (lower_char c)) = lower_char (unscore c)
  ∧ upper_char (unscore (lower_char c)) = upper_char (unscore c)
  ∧ (is_cased (unscore c) = false → unscore (lower_char c) = unscore c).
Proof.
  destruct c as [[] [] [] [] [] [] [] []]; vm_compute; repeat split; congruence.
Qed.

Lemma title_from_lower b s :
  title_from b (replace "_" " " (lower s)) = title_from b (replace "_" " " s).
Proof.
  revert b. induction s as [|c s IH]; intros b; [done|].
  unfold replace, lower in *. cbn [map_chars title_from].
  fold (unscore (lower_char c)). fold (unscore c).
  destruct (title_char_lower c) as (-> & Hl & Hu & Hn).
  destruct (is_cased (unscore c)).
  - rewrite IH. by destruct b; rewrite ?Hl, ?Hu.
  - by rewrite IH, Hn.
Qed.

Lemma title_lower s :
  title (replace "_" " " (lower s)) = title (replace "_" " " s).
Proof. apply title_from_lower. Qed.

(** *** Hyphen normalisation *)

Lemma dehyphen_char c d :
  dehyphen c = d ↔
  (d = " "%char ∧ (c = " "%char ∨ c = "-"%char)) ∨ (d ≠ " "%char ∧ d ≠ "-"%char ∧ c = d).
Proof.
  unfold dehyphen. destruct (Ascii.eqb_spec c "-") as [->|Hc].
  - split; [intros <-; auto|]. intros [[-> _]|(_ & ? & ?)]; congruence.
  - split.
    + intros <-. destruct (Ascii.eqb_spec c " ") as [->|Hs]; auto.
    + intros [[-> [-> | ->]]|(_ & _ & ->)]; congruence.
Qed.

Lemma elem_of_dehyphen_preimages e t :
  e ∈ dehyphen_preimages t ↔ replace "-" " " e = t.
Proof.
  revert e. induction t as [|d t IH]; intros e.
  - simpl. rewrite list_elem_of_singleton. by destruct e.
  - cbn [dehyphen_preimages]. destruct e as [|c e].
    + split; [|done]. intros He.
      destruct (Ascii.eqb d " ").
      * apply elem_of_app in He as [He|He];
          apply list_elem_of_fmap in He as (? & ? & _); done.
      * destruct (Ascii.eqb d "-"); [by apply elem_of_nil in He|].
        apply list_elem_of_fmap in He as (? & ? & _); done.
    + unfold replace. cbn [map_chars]. fold (dehyphen c). fold (replace "-" " " e).
      assert (∀ x, String c e ∈ map (String x) (dehyphen_preimages t)
                   ↔ c = x ∧ replace "-" " " e = t) as Hmap.
      { intros x. rewrite <- IH. split.
        - intros (y & ? & ?)%list_elem_of_fmap. by simplify_eq.
        - intros [-> ?]. by apply list_elem_of_fmap_2. }
      split.
      * intros He. destruct (Ascii.eqb_spec d " ") as [->|Hd].
        { apply elem_of_app in He as [He|He]; apply Hmap in He as [-> ->]; done. }
        destruct (Ascii.eqb_spec d "-") as [->|Hd']; [by apply elem_of_nil in He|].
        apply Hmap in He as [-> ->]. f_equal.
        apply dehyphen_char. auto.
      * intros [= Hc He]. apply dehyphen_char in Hc.
        destruct Hc as [[-> Hc]|(Hd & Hd' & ->)].
        { change (Ascii.eqb " " " ") with true. cbn iota.
          apply elem_of_app. destruct Hc as [-> | ->]; [left|right]; by apply Hmap. }
        destruct (Ascii.eqb_spec d " ") as [|_]; [done|].
        destruct (Ascii.eqb_spec d "-") as [|_]; [done|].
        by apply Hmap.
Qed.

(** *** One-decimal formatting *)

(** The printed tenths are a nearest integer to ten times the value, and
    an exact tie goes to the even neighbour. *)
Lemma round_tenths_nearest n d :
  0 <= n →
  let t := round_tenths (n # d) in
  2 * Z.abs (10 * n - t * Zpos d) <= Zpos d
  ∧ (2 * Z.abs (10 * n - t * Zpos d) = Zpos d → Z.even t = true).
Proof.
  intros Hn. unfold round_tenths. cbn [Qnum Qden].
  rewrite (Z.abs_eq n) by done.
  pose proof (Z.div_mod (n * 10) (Zpos d) ltac:(done)) as Hdm.
  pose proof (Z.mod_pos_bound (n * 10) (Zpos d) ltac:(done)) as Hb.
  set (lo := n * 10 / Zpos d) in *. set (r := (n * 10) mod Zpos d) in *.
  destruct (Z.ltb_spec (2 * r) (Zpos d)); [split; lia|].
  destruct (Z.ltb_spec (Zpos d) (2 * r)); [split; lia|].
  destruct (Z.even lo) eqn:He; [split; [lia|done]|].
  split; [lia|]. intros _.
  rewrite Z.even_add, He. done.
Qed.

End PyStrFacts.

(** ** The matcher: shape of the candidates *)

Import PyStrSpec PyStrFacts.

Lemma relevance_score_cases sc ps :
  relevance_score sc ps = 100 ∨ relevance_score sc ps = 50 ∨ relevance_score sc ps = 0.
Proof.
  unfold relevance_score.
  destruct (_ && _); [by left|]. destruct (negb _); auto.
Qed.

Lemma relevance_score_100 sc ps :
  relevance_score sc ps = 100 ↔ sc ≠ "" ∧ ∃ kw, Keyword kw sc ∧ Substring kw ps.
Proof.
  unfold relevance_score.
  destruct (PyStr.nonempty sc) eqn:Hne; simpl.
  - apply nonempty_true in Hne.
    destruct (existsb _ _) eqn:Hex.
    + split; [intros _|done]. split; [done|].
      apply existsb_exists in Hex as (kw & Hin & Hc).
      exists kw. split.
      * by apply elem_of_split, list_elem_of_In.
      * by apply contains_spec.
    + split; [done|]. intros [_ (kw & Hk & Hs)].
      assert (existsb (λ keyword, PyStr.contains keyword ps) (PyStr.split sc) = true)
        as Hex'; [|congruence].
      apply existsb_exists. exists kw. split.
      * by apply list_elem_of_In, elem_of_split.
      * by apply contains_spec.
  - apply nonempty_false in Hne. split; [done|]. by intros [? _].
Qed.

Lemma relevance_score_50 sc ps : relevance_score sc ps = 50 ↔ sc = "".
Proof.
  unfold relevance_score.
  destruct (PyStr.nonempty sc) eqn:Hne; simpl.
  - apply nonempty_true in Hne. destruct (existsb _ _); split; done.
  - apply nonempty_false in Hne. split; done.
Qed.

Lemma relevance_score_0 sc ps :
  relevance_score sc ps = 0 ↔ sc ≠ "" ∧ ¬ ∃ kw, Keyword kw sc ∧ Substring kw ps.
Proof.
  pose proof (relevance_score_100 sc ps) as H100.
  pose proof (relevance_score_50 sc ps) as H50.
  destruct (relevance_score_cases sc ps) as [H|[H|H]]; rewrite H in *.
  - split; [done|]. intros [_ Hn]. destruct Hn.
    by destruct (proj1 H100 eq_refl) as [_ ?].
  - split; [done|]. intros [Hne _]. destruct Hne. by apply H50.
  - split; [intros _|done]. split.
    + intros Hsc. by pose proof (proj2 H50 Hsc).
    + intros Hk. destruct (decide (sc = "")) as [Hsc|Hsc].
      * by pose proof (proj2 H50 Hsc).
      * by pose proof (proj2 H100 (conj Hsc Hk)).
Qed.

Lemma match_intervention_Some dn score ps conf base i m :
  match_intervention dn score ps conf base i = Some m ↔
  domain_accepts dn (domain i) = true
  ∧ relevance_score (PyStr.lower (source_category i)) ps ≠ 0
  ∧ m = (i,
         final_priority base (priority_rank i)
           (relevance_score (PyStr.lower (source_category i)) ps),
         reason_string dn score conf (PyStr.lower (source_category i))).
Proof.
  unfold match_intervention.
  destruct (domain_accepts dn (domain i)); simpl; [|by split; [|intros [? _]]].
  destruct (Z.eqb_spec (relevance_score (PyStr.lower (source_category i)) ps) 0).
  - split; [done|]. by intros (_ & ? & _).
  - split; [intros [= <-]; done|]. by intros (_ & _ & ->).
Qed.

Lemma elem_of_match_domain g cat sd dk dn m :
  m ∈ match_domain g cat sd (dk, dn) ↔
  Qle_bool (MODERATE_SCORE_THRESHOLD g) (domain_score sd dk) = true
  ∧ ∃ i, i ∈ cat
         ∧ domain_accepts dn (domain i) = true
         ∧ relevance_score (PyStr.lower (source_category i))
             (domain_primary_source sd dk) ≠ 0
         ∧ m = candidate g sd dk dn i.
Proof.
  unfold match_domain, Qltb. fold (domain_score sd dk).
  destruct (Qle_bool _ _); simpl.
  - rewrite list_elem_of_omap. split.
    + intros (i & Hi & Hm). apply match_intervention_Some in Hm as (? & ? & ->).
      split; [done|]. by exists i.
    + intros [_ (i & Hi & Ha & Hr & ->)]. exists i. split; [done|].
      by apply match_intervention_Some.
  - split; [by intros ?%elem_of_nil|by intros [? _]].
Qed.

Lemma elem_of_collect_matches g cat sd m :
  m ∈ collect_matches g cat sd ↔
  ∃ dk dn, (dk, dn) ∈ domain_map ∧ m ∈ match_domain g cat sd (dk, dn).
Proof.
  unfold collect_matches. rewrite list_elem_of_In, in_flat_map. split.
  - intros ([dk dn] & He & Hm). exists dk, dn. by rewrite !list_elem_of_In.
  - intros (dk & dn & He & Hm). exists (dk, dn). by rewrite <- !list_elem_of_In.
Qed.

Lemma matcher_subseteq g cat sd :
  _match_interventions_for_patient g cat sd ⊆ collect_matches g cat sd.
Proof.
  unfold _match_interventions_for_patient. intros m Hm.
  apply subseteq_take in Hm. by apply elem_of_sort_by in Hm.
Qed.

(** Every returned candidate was appended by some domain of [domain_map]
    whose score passes the gate, for some catalog entry of that domain with
    a non-zero relevance. *)
Lemma matcher_candidate g cat sd m :
  m ∈ _match_interventions_for_patient g cat sd →
  ∃ dk dn i,
    (dk, dn) ∈ domain_map ∧ i ∈ cat
    ∧ Qle_bool (MODERATE_SCORE_THRESHOLD g) (domain_score sd dk) = true
    ∧ domain_accepts dn (domain i) = true
    ∧ relevance_score (PyStr.lower (source_category i))
        (domain_primary_source sd dk) ≠ 0
    ∧ m = candidate g sd dk dn i.
Proof.
  intros Hm%matcher_subseteq.
  apply elem_of_collect_matches in Hm as (dk & dn & He & Hm).
  apply elem_of_match_domain in Hm as (Hs & i & Hi & Ha & Hr & ->).
  by exists dk, dn, i.
Qed.

(** ** The domains of [domain_map] *)

Lemma Forall_pairs {A B} (P : A → B → Prop) (l : list (A * B)) :
  Forall (λ e, P e.1 e.2) l → ∀ a b, (a, b) ∈ l → P a b.
Proof. intros HP a b He. by apply (proj1 (Forall_forall _ _) HP (a, b)). Qed.

Lemma domain_map_Forall (P : string → string → Prop) :
  Forall (λ e, P e.1 e.2) domain_map → ∀ dk dn, (dk, dn) ∈ domain_map → P dk dn.
Proof. apply Forall_pairs. Qed.

(** One goal for each entry of a concrete list. *)
Ltac each_domain :=
  repeat first [apply Forall_nil_2 | apply Forall_cons_2]; cbn [fst snd].

(** The membership test of the catalog filter is equality up to the
    spelling of the hyphen, for every name of [domain_map]. *)
Lemma domain_accepts_normalize dk dn :
  (dk, dn) ∈ domain_map →
  ∀ e, domain_accepts dn (Some e) = true ↔ normalize e = normalize dn.
Proof.
  revert dk dn.
  apply (domain_map_Forall
           (λ dk dn, ∀ e, domain_accepts dn (Some e) = true
                          ↔ normalize e = normalize dn)).
  each_domain; intros e; unfold normalize;
    rewrite <- elem_of_dehyphen_preimages; cbn [domain_accepts];
    rewrite orb_true_iff, !String.eqb_eq;
    vm_compute dehyphen_preimages; vm_compute PyStr.replace;
    rewrite ?elem_of_cons, elem_of_nil; intuition congruence.
Qed.

(** Two entries of [domain_map] that accept the same catalog spelling are
    the same entry. *)
Lemma domain_map_normalize_inj dk dn dk' dn' :
  (dk, dn) ∈ domain_map → (dk', dn') ∈ domain_map →
  normalize dn = normalize dn' → dk = dk' ∧ dn = dn'.
Proof.
  intros He. revert dk' dn'. revert dk dn He.
  apply (domain_map_Forall
           (λ dk dn, ∀ dk' dn', (dk', dn') ∈ domain_map →
                     normalize dn = normalize dn' → dk = dk' ∧ dn = dn')).
  each_domain;
    apply (domain_map_Forall (λ dk' dn', normalize _ = normalize dn' → _ = dk' ∧ _ = dn'));
    each_domain; intros Hn; vm_compute in Hn;
    first [done | discriminate Hn].
Qed.

(** No reason label starts the reason string of another domain. *)
Lemma reason_label_prefix dk dn dk' dn' rest :
  (dk, dn) ∈ domain_map → (dk', dn') ∈ domain_map →
  String.prefix (reason_label dn) (reason_label dn' +:+ rest) = true →
  dk = dk' ∧ dn = dn'.
Proof.
  intros He. revert dk' dn'. revert dk dn He.
  apply (domain_map_Forall
           (λ dk dn, ∀ dk' dn', (dk', dn') ∈ domain_map →
                     String.prefix (reason_label dn) (reason_label dn' +:+ rest) = true →
                     dk = dk' ∧ dn = dn')).
  each_domain;
    apply (domain_map_Forall
             (λ dk' dn', String.prefix _ (reason_label dn' +:+ rest) = true
                         → _ = dk' ∧ _ = dn'));
    each_domain; intros Hn; vm_compute in Hn;
    first [done | discriminate Hn].
Qed.

Lemma reason_string_label dn score conf sc :
  ∃ rest, reason_string dn score conf sc = reason_label dn +:+ rest.
Proof.
  unfold reason_string, reason_label, normalize.
  destruct (negb _), (PyStr.nonempty sc); eexists;
    rewrite ?append_assoc; reflexivity.
Qed.

(** ** Ingestion of the sample row *)

Example rice_row_unprocessed : _get_unprocessed_scores [rice_row] [] = [rice_data].
Proof. vm_compute. reflexivity. Qed.

(** ** Comparisons *)

Lemma Qltb_lt x y : Qltb x y = true ↔ (x < y)%Q.
Proof.
  unfold Qltb. rewrite negb_true_iff, <- not_true_iff_false, Qle_bool_iff.
  split; [apply Qnot_le_lt|apply Qlt_not_le].
Qed.

Lemma Qgeb_le x y : Qgeb x y = true ↔ (y <= x)%Q.
Proof. apply Qle_bool_iff. Qed.

(** ** The assignment loop *)

Lemma create_from_bounds create pid rid date idx matched table n :
  let r := create_from create pid rid date idx matched table n in
  n ≤ r.1 ≤ n + Z.of_nat (length matched)
  ∧ (length table ≤ length r.2 ≤ length table + length matched)%nat.
Proof.
  revert idx table n. induction matched as [|m matched IH]; intros idx table n.
  - simpl. lia.
  - cbn [create_from]. destruct (create _ _).
    + specialize (IH (idx + 1) (table ++ [make_assignment pid rid date idx m]) (n + 1)).
      cbn zeta in IH. rewrite length_app in IH. simpl in *. lia.
    + specialize (IH (idx + 1) table n). simpl in *. lia.
Qed.

(** * The claims *)

(** C1.  For every catalog and every score record the matcher returns at
    most [MAX_INTERVENTIONS_PER_PATIENT] = 10 candidates; so the assignment
    loop run on them reports at most 10 created rows and adds at most 10
    rows to the table, whatever the record store does. *)
Theorem C1_at_most_ten_candidates (cat : list intervention) (sd : score_data) :
  (length (_match_interventions_for_patient globals cat sd) ≤ 10)%nat
  ∧ ∀ create pid rid date table,
      let r := _create_intervention_assignments create pid rid date
                 (_match_interventions_for_patient globals cat sd) table in
      0 ≤ r.1 ≤ 10 ∧ (length r.2 ≤ length table + 10)%nat.
Proof.
  assert (length (_match_interventions_for_patient globals cat sd) ≤ 10)%nat as Hlen.
  { unfold _match_interventions_for_patient. rewrite length_take.
    change (MAX_INTERVENTIONS_PER_PATIENT globals) with 10%nat. lia. }
  split; [done|]. intros create pid rid date table.
  pose proof (create_from_bounds create pid rid date 1
                (_match_interventions_for_patient globals cat sd) table 0) as Hb.
  unfold _create_intervention_assignments. cbn zeta in *. lia.
Qed.

(** C2.  A domain of [domain_map] whose score is below
    [MODERATE_SCORE_THRESHOLD] = 5.0 appends nothing to [matches], and no
    returned candidate carries that domain's label in its reason. *)
Theorem C2_threshold_gate (cat : list intervention) (sd : score_data)
    (dk dn : string) :
  (dk, dn) ∈ domain_map →
  (domain_score sd dk < 5 # 1)%Q →
  match_domain globals cat sd (dk, dn) = []
  ∧ ∀ m, m ∈ _match_interventions_for_patient globals cat sd →
         String.prefix (reason_label dn) (m_reason m) = false.
Proof.
  intros He Hlt. apply Qltb_lt in Hlt. split.
  - unfold match_domain. fold (domain_score sd dk).
    change (MODERATE_SCORE_THRESHOLD globals) with (5 # 1). by rewrite Hlt.
  - intros m (dk' & dn' & i & He' & _ & Hs & _ & _ & ->)%matcher_candidate.
    apply not_true_iff_false. intros Hp.
    unfold candidate, m_reason in Hp. cbn [snd] in Hp.
    destruct (reason_string_label dn' (domain_score sd dk') (domain_conf sd dk')
                (PyStr.lower (source_category i))) as [rest Hrest].
    rewrite Hrest in Hp.
    destruct (reason_label_prefix _ _ _ _ _ He He' Hp) as [<- _].
    unfold Qltb in Hlt. change (MODERATE_SCORE_THRESHOLD globals) with (5 # 1) in Hs.
    rewrite Hs in Hlt. done.
Qed.

Lemma C2_threshold_gate_witness :
  match_domain globals [rice_entry] low_data ("arsenic", "Arsenic") = []
  ∧ ∀ m, m ∈ _match_interventions_for_patient globals [rice_entry] low_data →
         String.prefix (reason_label "Arsenic") (m_reason m) = false.
Proof.
  apply (C2_threshold_gate [rice_entry] low_data "arsenic" "Arsenic").
  - apply list_elem_of_here.
  - vm_compute. reflexivity.
Defined.

(** ** Base priority and the ingested confidence *)

Lemma base_priority_spec g score conf :
  ((HIGH_SCORE_THRESHOLD g <= score)%Q →
     base_priority g score conf
     = if decide (conf = "high") then 1 else if decide (conf = "moderate") then 2 else 3)
  ∧ ((score < HIGH_SCORE_THRESHOLD g)%Q → base_priority g score conf = 3).
Proof.
  unfold base_priority, Qgeb. split.
  - intros Hle%Qle_bool_iff. rewrite Hle.
    destruct (String.eqb_spec conf "high"), (String.eqb_spec conf "moderate");
      repeat case_decide; congruence.
  - intros Hlt%Qltb_lt. unfold Qltb in Hlt. apply negb_true_iff in Hlt. by rewrite Hlt.
Qed.

(** The eight domains whose confidence column is read. *)
Lemma ingested_confidence row rid dk column :
  (dk, column) ∈ confidence_columns →
  domain_conf (unprocessed_entry row rid) dk
  = PyStr.lower (get (texts (fields row)) column "low").
Proof.
  revert dk column.
  apply (Forall_pairs (λ dk column,
           domain_conf (unprocessed_entry row rid) dk
           = PyStr.lower (get (texts (fields row)) column "low"))).
  each_domain; reflexivity.
Qed.

(** The three domains whose confidence column is never read: whatever the
    row holds, the matcher sees the default. *)
Lemma dropped_confidence row rid dk :
  dk ∈ ["parabens"; "mycotoxins_food"; "mycotoxins_water_damage"] →
  confidence (unprocessed_entry row rid) !! dk = None
  ∧ domain_conf (unprocessed_entry row rid) dk = "low".
Proof.
  revert dk. apply Forall_forall. each_domain; split; reflexivity.
Qed.

(** For the eight domains of [confidence_columns] the base priority follows
    the confidence cell of the row. *)
Lemma base_priority_ingested row rid dk column :
  (dk, column) ∈ confidence_columns →
  let sd := unprocessed_entry row rid in
  let conf := PyStr.lower (get (texts (fields row)) column "low") in
  ((7 # 1 <= domain_score sd dk)%Q →
     domain_base_priority globals sd dk
     = if decide (conf = "high") then 1 else if decide (conf = "moderate") then 2 else 3)
  ∧ ((domain_score sd dk < 7 # 1)%Q → domain_base_priority globals sd dk = 3).
Proof.
  intros He. cbn zeta. unfold domain_base_priority.
  rewrite (ingested_confidence row rid dk column He).
  apply (base_priority_spec globals).
Qed.

(** C3.  The row [myco_row] has [mycotoxins_food_score] 8.0 and
    [mycotoxins_food_confidence] "high".  [_get_unprocessed_scores] builds
    its [confidence] dictionary from the eight columns arsenic .. vocs only,
    so the matcher finds no confidence for the domain, takes "low", and uses
    base priority 3: the generic entry of rank 1 gets final priority
    3 + 0 - 1 = 2 and a reason without the confidence, where the stated rule
    gives base priority 1.  The arsenic row of the same shape gets base
    priority 1. *)
Theorem C3_mycotoxin_confidence_not_read :
  _get_unprocessed_scores [myco_row] [] = [myco_data]
  ∧ texts (fields myco_row) !! "mycotoxins_food_confidence" = Some "high"
  ∧ confidence myco_data !! "mycotoxins_food" = None
  ∧ domain_base_priority globals myco_data "mycotoxins_food" = 3
  ∧ map (λ m, (Qred (m_priority m), m_reason m))
        (_match_interventions_for_patient globals [myco_entry] myco_data)
    = [(2 # 1, "Mycotoxins Food score: 8.0/10")]
  ∧ domain_base_priority globals rice_data "arsenic" = 1.
Proof. repeat split; vm_compute; reflexivity. Qed.

(** C4.  For every domain of [domain_map] the catalog filter accepts a
    catalog spelling exactly when it equals the domain name once hyphens are
    read as spaces.  So two catalog entries that differ only in that spelling
    are treated alike (same skip or same priority and reason), in both
    directions, and an entry whose domain differs under the normalisation is
    skipped. *)
Theorem C4_domain_normalization (dk dn : string) :
  (dk, dn) ∈ domain_map →
  (∀ e, domain_accepts dn (Some e) = true ↔ normalize e = normalize dn)
  ∧ (∀ score ps conf base i1 i2 s1 s2,
       domain i1 = Some s1 → domain i2 = Some s2 →
       normalize s1 = normalize s2 →
       source_category i1 = source_category i2 →
       priority_rank i1 = priority_rank i2 →
       (λ m, (m_priority m, m_reason m)) <$> match_intervention dn score ps conf base i1
       = (λ m, (m_priority m, m_reason m)) <$> match_intervention dn score ps conf base i2)
  ∧ (∀ score ps conf base i,
       (∀ s, domain i = Some s → normalize s ≠ normalize dn) →
       match_intervention dn score ps conf base i = None).
Proof.
  intros He. pose proof (domain_accepts_normalize dk dn He) as Hacc.
  split; [done|]. split.
  - intros score ps conf base i1 i2 s1 s2 H1 H2 Hn Hsc Hrk.
    unfold match_intervention. rewrite H1, H2, Hsc, Hrk.
    assert (domain_accepts dn (Some s1) = domain_accepts dn (Some s2)) as ->.
    { apply eq_true_iff_eq. rewrite !Hacc. by rewrite Hn. }
    destruct (domain_accepts dn (Some s2)); [|done]. simpl.
    by destruct (_ =? 0).
  - intros score ps conf base i Hne. unfold match_intervention.
    destruct (domain i) as [s|] eqn:Hd; [|done].
    destruct (domain_accepts dn (Some s)) eqn:Ha; [|done].
    apply Hacc in Ha. by destruct (Hne s).
Qed.

Lemma C4_domain_normalization_witness :
  domain_accepts "Mycotoxins-Food" (Some "Mycotoxins Food") = true
  ∧ domain_accepts "Mycotoxins-Food" (Some "Mycotoxins-Food") = true
  ∧ match_intervention "Mycotoxins-Food" (8 # 1) "" "low" 3
      (catalog_entry "i3" "Mycotoxins_Food" "" 1) = None.
Proof.
  destruct (C4_domain_normalization "mycotoxins_food" "Mycotoxins-Food")
    as (Hacc & _ & Hskip).
  - repeat constructor.
  - split; [|split].
    + apply Hacc. reflexivity.
    + apply Hacc. reflexivity.
    + apply Hskip. intros s [= <-]. discriminate.
Defined.

(** ** Relevance *)

Lemma lower_empty s : PyStr.lower s = "" ↔ s = "".
Proof. by destruct s. Qed.

(** A catalog entry is accepted by at most one domain of [domain_map]. *)
Lemma domain_accepts_unique dk dn dk' dn' d :
  (dk, dn) ∈ domain_map → (dk', dn') ∈ domain_map →
  domain_accepts dn d = true → domain_accepts dn' d = true →
  dk = dk' ∧ dn = dn'.
Proof.
  intros He He' Ha Ha'. destruct d as [s|]; [|done].
  apply (domain_accepts_normalize dk dn He) in Ha.
  apply (domain_accepts_normalize dk' dn' He') in Ha'.
  apply (domain_map_normalize_inj dk dn dk' dn' He He'). congruence.
Qed.

(** C5.  For a catalog entry accepted by a domain, with [sc] its
    lower-cased [source_category] and [ps] the lower-cased primary-source
    text of the domain: the relevance is 100 exactly when the field is not
    empty and one of the blank-separated keywords of [sc] occurs in [ps], 50
    exactly when the field is empty, and 0 in the remaining case; for a
    field stored in lower case, as the catalog has it, the keywords are
    those of the field itself; and an entry of relevance 0 is the
    intervention of no returned candidate. *)
Theorem C5_relevance (g : module_globals) (cat : list intervention)
    (sd : score_data) (dk dn : string) (i : intervention) :
  (dk, dn) ∈ domain_map →
  domain_accepts dn (domain i) = true →
  let sc := PyStr.lower (source_category i) in
  let ps := domain_primary_source sd dk in
  let rel := relevance_score sc ps in
  (rel = 100 ↔ source_category i ≠ "" ∧ ∃ kw, Keyword kw sc ∧ Substring kw ps)
  ∧ (rel = 50 ↔ source_category i = "")
  ∧ (rel = 0 ↔ source_category i ≠ "" ∧ ¬ ∃ kw, Keyword kw sc ∧ Substring kw ps)
  ∧ (rel = 100 ∨ rel = 50 ∨ rel = 0)
  ∧ (sc = source_category i →
     (rel = 100 ↔ source_category i ≠ ""
                  ∧ ∃ kw, Keyword kw (source_category i) ∧ Substring kw ps))
  ∧ (rel = 0 → ∀ m, m ∈ _match_interventions_for_patient g cat sd →
                    m_intervention m ≠ i).
Proof.
  intros He Ha sc ps rel.
  pose proof (lower_empty (source_category i)) as Hempty. fold sc in Hempty.
  split; [|split; [|split; [|split; [|split]]]].
  - unfold rel. rewrite relevance_score_100. by rewrite Hempty.
  - unfold rel. rewrite relevance_score_50. done.
  - unfold rel. rewrite relevance_score_0. by rewrite Hempty.
  - apply relevance_score_cases.
  - intros Hsc. unfold rel. rewrite relevance_score_100, Hempty. by rewrite Hsc.
  - intros Hrel m (dk' & dn' & i' & He' & _ & _ & Ha' & Hr' & ->)%matcher_candidate.
    unfold candidate, m_intervention. cbn [fst]. intros ->.
    destruct (domain_accepts_unique dk dn dk' dn' (domain i) He He' Ha Ha') as [<- <-].
    done.
Qed.

Lemma C5_relevance_witness :
  relevance_score (PyStr.lower (source_category rice_entry))
    (domain_primary_source tuna_data "arsenic") = 0
  ∧ ∀ m, m ∈ _match_interventions_for_patient globals [rice_entry] tuna_data →
         m_intervention m ≠ rice_entry.
Proof.
  destruct (C5_relevance globals [rice_entry] tuna_data "arsenic" "Arsenic" rice_entry)
    as (_ & _ & _ & _ & _ & Hout).
  - repeat constructor.
  - reflexivity.
  - split; [reflexivity|]. apply Hout. reflexivity.
Defined.

(** ** Final priority *)

Lemma inject_Z_sub3 (a b c : Z) :
  (inject_Z (a - b - c) == inject_Z a - inject_Z b - inject_Z c)%Q.
Proof. unfold Qeq. simpl. lia. Qed.

Lemma final_priority_value base rank rel :
  rel = 50 ∨ rel = 100 →
  (final_priority base rank rel == rank + inject_Z (base - 1 - rel / 50))%Q.
Proof.
  intros [-> | ->]; unfold final_priority; rewrite inject_Z_sub3.
  - assert (inject_Z 50 / (50 # 1) == inject_Z (50 / 50))%Q as -> by reflexivity.
    change (inject_Z 1) with (1 # 1)%Q. ring.
  - assert (inject_Z 100 / (50 # 1) == inject_Z (100 / 50))%Q as -> by reflexivity.
    change (inject_Z 1) with (1 # 1)%Q. ring.
Qed.

Lemma final_priority_integral base z rank rel :
  rel = 50 ∨ rel = 100 →
  (rank == inject_Z z)%Q →
  (final_priority base rank rel == inject_Z (base + (z - 1) - rel / 50))%Q.
Proof.
  intros Hrel Hz. rewrite final_priority_value, Hz by done.
  rewrite <- inject_Z_plus. apply inject_Z_injective. lia.
Qed.








(** On a rank that is exact in doubles the float computation gives the
    exact value: rank 3/2 gives -1/2. *)
Example double_exact_on_half :
  ∃ r q,
    Double.value (Double.cell 3 2) = Some r
    ∧ Double.value (Double.final_priority 1 (Double.cell 3 2) 100) = Some q
    ∧ (r == 3 # 2)%Q ∧ (q == final_priority 1 r 100)%Q ∧ (q == -1 # 2)%Q.
Proof.
  eexists _, _. split; [vm_compute; reflexivity|].
  split; [vm_compute; reflexivity|]. repeat split.
Qed.

(** ** Ranking *)

Section OrderFacts.
Context {A : Type}.



End OrderFacts.

Lemma match_domain_catalog_order g cat sd e :
  m_intervention <$> match_domain g cat sd e `sublist_of` cat.
Proof.
  destruct e as [dk dn]. unfold match_domain.
  destruct (Qltb _ _); [apply sublist_nil_l|].
  induction cat as [|i cat IH]; [done|]. cbn [omap list_omap].
  destruct (match_intervention _ _ _ _ _ i) as [m|] eqn:Hm.
  - apply match_intervention_Some in Hm as (_ & _ & ->).
    rewrite fmap_cons. by apply sublist_skip.
  - by apply sublist_cons.
Qed.



(** ** Tiers *)

Lemma requested_from_cons pid rid date idx m matched :
  requested_from pid rid date idx (m :: matched)
  = make_assignment pid rid date idx m :: requested_from pid rid date (idx + 1) matched.
Proof.
  unfold requested_from. rewrite imap_cons. f_equal.
  - f_equal. lia.
  - apply imap_ext. intros i x _. simpl. f_equal. lia.
Qed.

(** The table after the loop: the old rows, then the requested rows whose
    write succeeded, in order; the count is the number of rows added. *)
Lemma create_from_spec create pid rid date matched :
  ∀ idx table n,
    ∃ kept,
      create_from create pid rid date idx matched table n
      = (n + Z.of_nat (length kept), table ++ kept)
      ∧ kept `sublist_of` requested_from pid rid date idx matched.
Proof.
  induction matched as [|m matched IH]; intros idx table n.
  - exists []. simpl. split; [|done]. f_equal; [lia|by rewrite app_nil_r].
  - rewrite requested_from_cons. cbn [create_from].
    destruct (create table (make_assignment pid rid date idx m)).
    + destruct (IH (idx + 1) (table ++ [make_assignment pid rid date idx m]) (n + 1))
        as (kept & -> & Hsub).
      exists (make_assignment pid rid date idx m :: kept). split.
      * f_equal; [simpl; lia|by rewrite <- app_assoc].
      * by apply sublist_skip.
    + destruct (IH (idx + 1) table n) as (kept & -> & Hsub).
      exists kept. split; [done|by apply sublist_cons].
Qed.

Lemma create_from_all_written create pid rid date matched :
  (∀ table a, create table a = true) →
  ∀ idx table n,
    create_from create pid rid date idx matched table n
    = (n + Z.of_nat (length matched), table ++ requested_from pid rid date idx matched).
Proof.
  intros Hok. induction matched as [|m matched IH]; intros idx table n.
  - simpl. f_equal; [lia|by rewrite app_nil_r].
  - rewrite requested_from_cons. cbn [create_from]. rewrite Hok, IH.
    f_equal; [simpl; lia|by rewrite <- app_assoc].
Qed.

Lemma requested_from_lookup pid rid date idx matched i row :
  requested_from pid rid date idx matched !! i = Some row ↔
  ∃ m, matched !! i = Some m ∧ row = make_assignment pid rid date (idx + Z.of_nat i) m.
Proof.
  unfold requested_from. rewrite list_lookup_imap.
  destruct (matched !! i) as [m|]; simpl.
  - split; [intros [= <-]; by exists m|]. by intros (? & [= <-] & ->).
  - split; [done|]. by intros (? & ? & _).
Qed.

(** C8.  The rows the assignment loop writes are, in order, requested rows
    (those whose write did not fail); the requested row for the candidate at
    1-based position [pos] has tier 1 for positions 1-3, tier 2 for 4-6 and
    tier 3 from 7 on (7-10 for a matcher result); and the tiers depend on
    the number of candidates only, not on their priorities. *)
Theorem C8_tier_by_rank (create : list assignment_data → assignment_data → bool)
    (pid : option string) (rid date : string) (matched : list match_t)
    (table : list assignment_data) :
  (∃ kept,
     _create_intervention_assignments create pid rid date matched table
     = (Z.of_nat (length kept), table ++ kept)
     ∧ kept `sublist_of` requested_assignments pid rid date matched)
  ∧ (∀ pos row,
       (1 ≤ pos)%nat →
       requested_assignments pid rid date matched !! (pos - 1)%nat = Some row →
       a_priority row
       = if decide (pos ≤ 3)%nat then 1 else if decide (pos ≤ 6)%nat then 2 else 3)
  ∧ (∀ matched' : list match_t,
       length matched' = length matched →
       a_priority <$> requested_assignments pid rid date matched'
       = a_priority <$> requested_assignments pid rid date matched).
Proof.
  split; [|split].
  - destruct (create_from_spec create pid rid date matched 1 table 0)
      as (kept & Hrun & Hsub).
    exists kept. split; [|done].
    unfold _create_intervention_assignments. rewrite Hrun. f_equal.
  - intros pos row Hpos (m & _ & ->)%requested_from_lookup.
    cbn [a_priority make_assignment]. unfold priority_tier.
    destruct (Z.leb_spec (1 + Z.of_nat (pos - 1)) 3),
      (Z.leb_spec (1 + Z.of_nat (pos - 1)) 6); repeat case_decide; lia.
  - intros matched' Hlen. unfold requested_assignments.
    generalize 1. revert matched' Hlen.
    induction matched as [|m matched IH]; intros [|m' matched'] Hlen idx;
      try done.
    rewrite !requested_from_cons, !fmap_cons. f_equal.
    apply IH. simpl in Hlen. lia.
Qed.

Lemma C8_tier_by_rank_witness :
  a_priority (make_assignment (Some "p1") "R1" "2024-01-01T00:00:00" 7 urgent_candidate) = 3.
Proof.
  apply (proj1 (proj2 (C8_tier_by_rank (λ _ _, true) (Some "p1") "R1"
                         "2024-01-01T00:00:00" (replicate 10 urgent_candidate) []))
           7%nat).
  - lia.
  - reflexivity.
Defined.

(** ** Justification *)

Lemma reason_string_justification dn score conf sc :
  reason_string dn score conf (PyStr.lower sc) = justification dn score conf sc.
Proof.
  unfold reason_string, justification, normalize.
  rewrite (nonempty_map_chars PyStr.lower_char sc : PyStr.nonempty (PyStr.lower sc) = _).
  rewrite title_lower.
  destruct (String.eqb_spec conf "low") as [->|Hc], sc as [|c sc];
    cbn [negb PyStr.nonempty]; repeat case_decide; try done;
    rewrite ?append_assoc; change ("" +:+ ?x) with x; rewrite ?append_nil_r;
    reflexivity.
Qed.

Lemma format_1f_nonneg n d :
  0 ≤ n →
  PyStr.format_1f (n # d)
  = PyStr.decimal (PyStr.round_tenths (n # d) / 10) +:+ "."
    +:+ PyStr.decimal (PyStr.round_tenths (n # d) mod 10).
Proof.
  intros Hn. unfold PyStr.format_1f. cbn [Qnum].
  destruct (Z.ltb_spec n 0); [lia|]. done.
Qed.

Example rice_candidate_returned :
  _match_interventions_for_patient globals [rice_entry] rice_data = [rice_candidate].
Proof. vm_compute. reflexivity. Qed.

(** C9.  The reason of every returned candidate is the justification
    string of its own domain and catalog entry; the score is printed as the
    nearest number of tenths, an exact tie going to the even one; the rice
    scenario (arsenic 8.0, high confidence, "I eat rice daily", entry of
    rank 2 with source category "rice") returns one candidate, of final
    priority 0, with the reason
    "Arsenic score: 8.0/10 (high confidence) - Source: Rice"; and a hyphened
    domain with an underscored category and the score 6.25 gives
    "Mycotoxins Food score: 6.2/10 - Source: Peanut Butter". *)
Theorem C9_justification :
  (∀ g cat sd m,
     m ∈ _match_interventions_for_patient g cat sd → justified g cat sd m)
  ∧ (∀ n d, 0 ≤ n →
       let t := PyStr.round_tenths (n # d) in
       PyStr.format_1f (n # d)
       = PyStr.decimal (t / 10) +:+ "." +:+ PyStr.decimal (t mod 10)
       ∧ 2 * Z.abs (10 * n - t * Zpos d) ≤ Zpos d
       ∧ (2 * Z.abs (10 * n - t * Zpos d) = Zpos d → Z.even t = true))
  ∧ (_get_unprocessed_scores [rice_row] [] = [rice_data]
     ∧ map (λ m, (m_intervention m, Qred (m_priority m), m_reason m))
           (_match_interventions_for_patient globals [rice_entry] rice_data)
       = [(rice_entry, 0 # 1,
           "Arsenic score: 8.0/10 (high confidence) - Source: Rice")])
  ∧ (_get_unprocessed_scores [toast_row] [] = [toast_data]
     ∧ map (λ m, (m_intervention m, Qred (m_priority m), m_reason m))
           (_match_interventions_for_patient globals [toast_entry] toast_data)
       = [(toast_entry, 2 # 1,
           "Mycotoxins Food score: 6.2/10 - Source: Peanut Butter")]).
Proof.
  split; [|split; [|split]].
  - intros g cat sd m (dk & dn & i & He & Hi & Hs & Ha & _ & ->)%matcher_candidate.
    exists dk, dn, i. unfold candidate, m_reason, m_intervention. cbn [fst snd].
    repeat split; try done.
    + by apply Qle_bool_iff.
    + apply reason_string_justification.
  - intros n d Hn t. split; [by apply format_1f_nonneg|].
    by apply round_tenths_nearest.
  - split; vm_compute; reflexivity.
  - split; vm_compute; reflexivity.
Qed.

Lemma C9_justification_witness :
  justified globals [rice_entry] rice_data rice_candidate.
Proof.
  apply (proj1 C9_justification globals [rice_entry] rice_data rice_candidate).
  rewrite rice_candidate_returned. apply list_elem_of_here.
Defined.

(** C10.  The matcher returns the same list whatever the module's
    [SOURCE_CATEGORY_KEYWORDS] table holds; the relevance test looks for the
    blank-separated words of the entry's own (lower-cased) source category
    in the primary-source text, so the entry "well_water" is not matched by
    the text "private well water", which holds two trigger phrases the table
    lists under that key. *)
Theorem C10_keyword_table_unused :
  (∀ table g cat sd,
     _match_interventions_for_patient (with_keywords table g) cat sd
     = _match_interventions_for_patient g cat sd)
  ∧ (∀ sc ps,
       relevance_score sc ps = 100 ↔ sc ≠ "" ∧ ∃ kw, Keyword kw sc ∧ Substring kw ps)
  ∧ (("well_water", ["well water"; "unfiltered water"; "private well"])
       ∈ SOURCE_CATEGORY_KEYWORDS globals
     ∧ relevance_score "well_water" "private well water" = 0).
Proof.
  split; [|split].
  - reflexivity.
  - apply relevance_score_100.
  - split; [|reflexivity]. apply list_elem_of_In. simpl. tauto.
Qed.

(** * Further properties *)

(** ** The matcher: which entries are returned *)

Lemma relevance_zero_excluded g cat sd dk dn i :
  (dk, dn) ∈ domain_map →
  domain_accepts dn (domain i) = true →
  relevance_score (PyStr.lower (source_category i)) (domain_primary_source sd dk) = 0 →
  ∀ m, m ∈ _match_interventions_for_patient g cat sd → m_intervention m ≠ i.
Proof.
  intros He Ha Hrel m (dk' & dn' & i' & He' & _ & _ & Ha' & Hr' & ->)%matcher_candidate.
  unfold candidate, m_intervention. cbn [fst]. intros ->.
  by destruct (domain_accepts_unique dk dn dk' dn' (domain i) He He' Ha Ha') as [<- <-].
Qed.

(** X1.  A catalog entry accepted by a domain whose score passes the gate,
    with a non-zero relevance, is appended to [matches]; it is returned
    whenever [matches] has at most [MAX_INTERVENTIONS_PER_PATIENT]
    elements. *)
Theorem matching_entry_returned (g : module_globals) (cat : list intervention)
    (sd : score_data) (dk dn : string) (i : intervention) :
  (dk, dn) ∈ domain_map →
  i ∈ cat →
  (MODERATE_SCORE_THRESHOLD g <= domain_score sd dk)%Q →
  domain_accepts dn (domain i) = true →
  relevance_score (PyStr.lower (source_category i)) (domain_primary_source sd dk) ≠ 0 →
  candidate g sd dk dn i ∈ collect_matches g cat sd
  ∧ ((length (collect_matches g cat sd) ≤ MAX_INTERVENTIONS_PER_PATIENT g)%nat →
     candidate g sd dk dn i ∈ _match_interventions_for_patient g cat sd).
Proof.
  intros He Hi Hs Ha Hr.
  assert (candidate g sd dk dn i ∈ collect_matches g cat sd) as Hin.
  { apply elem_of_collect_matches. exists dk, dn. split; [done|].
    apply elem_of_match_domain. split; [by apply Qle_bool_iff|]. by exists i. }
  split; [done|]. intros Hlen.
  unfold _match_interventions_for_patient.
  rewrite take_ge by (by rewrite sort_by_length).
  by apply elem_of_sort_by.
Qed.

Lemma matching_entry_returned_witness :
  rice_candidate ∈ collect_matches globals [rice_entry] rice_data
  ∧ ((length (collect_matches globals [rice_entry] rice_data) ≤ 10)%nat →
     rice_candidate ∈ _match_interventions_for_patient globals [rice_entry] rice_data).
Proof.
  apply (matching_entry_returned globals [rice_entry] rice_data "arsenic" "Arsenic"
           rice_entry).
  - repeat constructor.
  - repeat constructor.
  - vm_compute. discriminate.
  - reflexivity.
  - vm_compute. discriminate.
Defined.

(** X2.  The slice drops the least urgent candidates: the returned list and
    the dropped rest are together a rearrangement of [matches], whatever
    their number, and no dropped candidate has a smaller priority than a
    returned one. *)
Theorem truncation_keeps_most_urgent (g : module_globals) (cat : list intervention)
    (sd : score_data) :
  let rest := drop (MAX_INTERVENTIONS_PER_PATIENT g)
                (sort_by m_priority (collect_matches g cat sd)) in
  collect_matches g cat sd ≡ₚ _match_interventions_for_patient g cat sd ++ rest
  ∧ ∀ a b, a ∈ _match_interventions_for_patient g cat sd → b ∈ rest →
           (m_priority a <= m_priority b)%Q.
Proof.
  intros rest. unfold _match_interventions_for_patient, rest. split.
  - by rewrite take_drop, sort_by_Permutation.
  - intros a b Ha Hb.
    pose proof (sort_by_sorted m_priority (collect_matches g cat sd)) as Hs.
    rewrite <- (take_drop (MAX_INTERVENTIONS_PER_PATIENT g)) in Hs.
    by apply (StronglySorted_app_1_elem_of _ _ _ _ _ Hs).
Qed.

Lemma truncation_keeps_most_urgent_witness :
  let a := candidate globals rice_data "arsenic" "Arsenic"
             (catalog_entry "1" "Arsenic" "" 1) in
  let b := candidate globals rice_data "arsenic" "Arsenic"
             (catalog_entry "11" "Arsenic" "" 11) in
  (m_priority a <= m_priority b)%Q.
Proof.
  intros a b.
  apply (proj2 (truncation_keeps_most_urgent globals crowded_catalog rice_data) a b).
  - vm_compute. apply list_elem_of_here.
  - vm_compute. apply list_elem_of_here.
Defined.

Lemma domain_map_NoDup : NoDup domain_map.
Proof. apply (bool_decide_unpack _). vm_compute. reflexivity. Qed.

Lemma match_domain_accepted g cat sd dk dn m :
  m ∈ match_domain g cat sd (dk, dn) →
  domain_accepts dn (domain (m_intervention m)) = true.
Proof. by intros (_ & i & _ & Ha & _ & ->)%elem_of_match_domain. Qed.

Lemma collect_NoDup g cat sd (ds : list (string * string)) :
  NoDup cat → NoDup ds → ds ⊆ domain_map →
  NoDup (m_intervention <$> flat_map (match_domain g cat sd) ds).
Proof.
  intros Hcat. induction ds as [|[dk dn] ds IH]; intros Hds Hsub; [constructor|].
  apply NoDup_cons in Hds as [Hnew Hds]. cbn [flat_map]. rewrite fmap_app.
  apply NoDup_app. split; [|split].
  - eapply sublist_NoDup; [exact Hcat|apply match_domain_catalog_order].
  - intros i (m & -> & Hm)%list_elem_of_fmap (m' & Heq & Hm')%list_elem_of_fmap.
    apply list_elem_of_In, in_flat_map in Hm' as ([dk' dn'] & He' & Hm').
    apply list_elem_of_In in He', Hm'.
    apply match_domain_accepted in Hm, Hm'. rewrite <- Heq in Hm'.
    destruct (domain_accepts_unique dk dn dk' dn' _
                (Hsub _ (list_elem_of_here _ _))
                (Hsub _ (list_elem_of_further _ _ _ He')) Hm Hm') as [-> ->].
    done.
  - apply IH; [done|]. intros e He. apply Hsub. by right.
Qed.

(** X3.  A catalog without repeated entries gives a result without repeated
    interventions: an entry is a candidate of at most one domain, once. *)
Theorem result_without_duplicates (g : module_globals) (cat : list intervention)
    (sd : score_data) :
  NoDup cat →
  NoDup (m_intervention <$> _match_interventions_for_patient g cat sd).
Proof.
  intros Hcat. unfold _match_interventions_for_patient.
  eapply sublist_NoDup; [|apply fmap_sublist, sublist_take].
  rewrite sort_by_Permutation.
  by apply collect_NoDup; [|apply domain_map_NoDup|].
Qed.

Lemma result_without_duplicates_witness :
  NoDup (m_intervention <$> _match_interventions_for_patient globals
                              [rice_entry; urgent_entry] rice_data).
Proof.
  apply (result_without_duplicates globals [rice_entry; urgent_entry] rice_data).
  apply NoDup_cons. split; [|apply NoDup_singleton].
  intros H%list_elem_of_singleton. discriminate H.
Defined.

Lemma candidate_collected g cat sd dk dn i :
  (dk, dn) ∈ domain_map → i ∈ cat →
  (MODERATE_SCORE_THRESHOLD g <= domain_score sd dk)%Q →
  domain_accepts dn (domain i) = true →
  relevance_score (PyStr.lower (source_category i)) (domain_primary_source sd dk) ≠ 0 →
  candidate g sd dk dn i ∈ collect_matches g cat sd.
Proof.
  intros He Hi Hs Ha Hr. apply elem_of_collect_matches. exists dk, dn. split; [done|].
  apply elem_of_match_domain. split; [by apply Qle_bool_iff|]. by exists i.
Qed.



Lemma take_nil_iff {A} n (l : list A) : (0 < n)%nat → take n l = [] ↔ l = [].
Proof. intros Hn. destruct n, l; simpl; split; (done || lia). Qed.

Lemma sort_by_nil_iff {A} (key : A → Q) l : sort_by key l = [] ↔ l = [].
Proof.
  split; [|by intros ->]. intros Hs.
  apply length_zero_iff_nil. rewrite <- (sort_by_length key), Hs. done.
Qed.

(** X5.  The matcher returns the empty list exactly when no catalog entry
    accepted by a domain with a score of 5.0 or more has a non-zero
    relevance there. *)
Theorem empty_result_iff (cat : list intervention) (sd : score_data) :
  _match_interventions_for_patient globals cat sd = [] ↔
  ∀ dk dn i,
    (dk, dn) ∈ domain_map → i ∈ cat →
    (5 # 1 <= domain_score sd dk)%Q →
    domain_accepts dn (domain i) = true →
    relevance_score (PyStr.lower (source_category i)) (domain_primary_source sd dk) = 0.
Proof.
  unfold _match_interventions_for_patient.
  rewrite take_nil_iff by (simpl; lia). rewrite sort_by_nil_iff. split.
  - intros Hnil dk dn i He Hi Hs Ha.
    destruct (decide (relevance_score (PyStr.lower (source_category i))
                        (domain_primary_source sd dk) = 0)) as [|Hr]; [done|].
    pose proof (candidate_collected globals cat sd dk dn i He Hi Hs Ha Hr) as Hin.
    rewrite Hnil in Hin. by apply elem_of_nil in Hin.
  - intros Hall. destruct (collect_matches globals cat sd) as [|m l] eqn:Hc; [done|].
    assert (m ∈ collect_matches globals cat sd) as Hin by (rewrite Hc; left).
    apply elem_of_collect_matches in Hin as (dk & dn & He & Hm).
    apply elem_of_match_domain in Hm as (Hs & i & Hi & Ha & Hr & _).
    apply Qle_bool_iff in Hs. destruct Hr. by apply (Hall dk dn i).
Qed.

Lemma relevance_empty_text sc : sc ≠ "" → relevance_score sc "" = 0.
Proof.
  intros Hsc. apply relevance_score_0. split; [done|].
  intros (kw & [[Hne _] _] & pre & post & Hp).
  destruct pre; [|done]. destruct kw; done.
Qed.

(** X6.  When the primary-source text of a domain is empty or missing, an
    entry of that domain with a source category is never returned: only
    its generic entries can be. *)
Theorem empty_source_text_only_generic (g : module_globals) (cat : list intervention)
    (sd : score_data) (dk dn : string) (i : intervention) (m : match_t) :
  (dk, dn) ∈ domain_map →
  get (primary_sources sd) dk "" = "" →
  domain_accepts dn (domain i) = true →
  source_category i ≠ "" →
  m ∈ _match_interventions_for_patient g cat sd →
  m_intervention m ≠ i.
Proof.
  intros He Hps Ha Hsc. apply (relevance_zero_excluded g cat sd dk dn i He Ha).
  unfold domain_primary_source. rewrite Hps. apply relevance_empty_text.
  by rewrite lower_empty.
Qed.

Lemma empty_source_text_only_generic_witness :
  m_intervention (candidate globals silent_data "arsenic" "Arsenic" generic_entry)
  ≠ rice_entry.
Proof.
  apply (empty_source_text_only_generic globals [rice_entry; generic_entry] silent_data
           "arsenic" "Arsenic" rice_entry).
  - repeat constructor.
  - reflexivity.
  - reflexivity.
  - discriminate.
  - vm_compute. apply list_elem_of_here.
Defined.

(** ** The matcher: keywords of a source category *)

Lemma all_chars_app p s1 s2 :
  all_chars p (s1 +:+ s2) = all_chars p s1 && all_chars p s2.
Proof.
  induction s1 as [|c s1 IH]; [done|].
  change (String c s1 +:+ s2) with (String c (s1 +:+ s2)). cbn [all_chars].
  by rewrite IH, andb_assoc.
Qed.

Lemma Keyword_of_word kw w : word w → Keyword kw w ↔ kw = w.
Proof.
  intros Hw. split.
  - intros [_ (pre & post & Heq & Hpre & Hpost)].
    destruct Hw as [_ Hall]. rewrite Heq, !all_chars_app in Hall.
    apply andb_true_iff in Hall as [Hpre' Hrest].
    apply andb_true_iff in Hrest as [_ Hpost'].
    destruct Hpre as [->|(p & c & -> & Hc)].
    + destruct Hpost as [->|(c & p & -> & Hc)].
      * rewrite Heq. change ("" +:+ kw +:+ "") with (kw +:+ "").
        by rewrite append_nil_r.
      * cbn [all_chars] in Hpost'. rewrite Hc in Hpost'. done.
    + rewrite all_chars_app in Hpre'. cbn [all_chars] in Hpre'.
      rewrite Hc, andb_false_r in Hpre'. done.
  - intros ->. split; [done|]. exists "", "". split; [|split; by left].
    change ("" +:+ w +:+ "") with (w +:+ ""). by rewrite append_nil_r.
Qed.

(** X7.  A source category without blanks is one keyword: it has relevance
    100 when it occurs in the primary-source text as it stands, and 0
    otherwise.  Underscores do not separate keywords. *)
Theorem single_word_category (sc ps : string) :
  word sc →
  (relevance_score sc ps = 100 ↔ Substring sc ps)
  ∧ (relevance_score sc ps = 0 ↔ ¬ Substring sc ps).
Proof.
  intros Hw. assert (sc ≠ "") as Hne by apply Hw.
  assert ((∃ kw, Keyword kw sc ∧ Substring kw ps) ↔ Substring sc ps) as Hk.
  { split.
    - intros (kw & Hkw & Hs). by apply (Keyword_of_word kw sc Hw) in Hkw as ->.
    - intros Hs. exists sc. split; [by apply Keyword_of_word|done]. }
  rewrite relevance_score_100, relevance_score_0, Hk. tauto.
Qed.

Lemma single_word_category_witness :
  (relevance_score "well_water" "private well water" = 100
   ↔ Substring "well_water" "private well water")
  ∧ (relevance_score "well_water" "private well water" = 0
     ↔ ¬ Substring "well_water" "private well water").
Proof.
  apply (single_word_category "well_water" "private well water").
  split; [discriminate|reflexivity].
Defined.

Lemma split_blanks s : all_chars PyStr.is_space s = true → PyStr.split s = [].
Proof.
  induction s as [|c s IH]; [done|]. cbn [all_chars].
  intros [Hc Hs]%andb_true_iff. rewrite split_blank by done. by apply IH.
Qed.

(** X8.  A source category that is not empty but holds blanks only has
    relevance 0 for every text: such an entry is neither specific nor
    generic, and is never returned. *)
Theorem blank_category_never_matches (g : module_globals) (cat : list intervention)
    (sd : score_data) (dk dn : string) (i : intervention) (m : match_t) :
  (dk, dn) ∈ domain_map →
  domain_accepts dn (domain i) = true →
  source_category i ≠ "" →
  all_chars PyStr.is_space (source_category i) = true →
  m ∈ _match_interventions_for_patient g cat sd →
  (∀ ps, relevance_score (PyStr.lower (source_category i)) ps = 0)
  ∧ m_intervention m ≠ i.
Proof.
  intros He Ha Hne Hblank Hm.
  assert (∀ ps, relevance_score (PyStr.lower (source_category i)) ps = 0) as Hzero.
  { intros ps. unfold relevance_score.
    assert (all_chars PyStr.is_space (PyStr.lower (source_category i)) = true) as Hl.
    { revert Hblank. generalize (source_category i). intros s.
      induction s as [|c s IH]; [done|]. unfold PyStr.lower. cbn [PyStr.map_chars all_chars].
      intros [Hc Hs]%andb_true_iff. apply andb_true_iff. split; [|by apply IH].
      revert Hc. destruct c as [[] [] [] [] [] [] [] []]; vm_compute; congruence. }
    rewrite (split_blanks _ Hl). cbn [existsb]. rewrite andb_false_r.
    unfold PyStr.lower. rewrite nonempty_map_chars.
    apply nonempty_true in Hne. by rewrite Hne. }
  split; [done|].
  by apply (relevance_zero_excluded g cat sd dk dn i He Ha (Hzero _) m).
Qed.

Lemma blank_category_never_matches_witness :
  (∀ ps, relevance_score (PyStr.lower (source_category blank_category_entry)) ps = 0)
  ∧ m_intervention (candidate globals rice_data "arsenic" "Arsenic" generic_entry)
    ≠ blank_category_entry.
Proof.
  apply (blank_category_never_matches globals [blank_category_entry; generic_entry]
           rice_data "arsenic" "Arsenic" blank_category_entry).
  - repeat constructor.
  - reflexivity.
  - discriminate.
  - reflexivity.
  - vm_compute. apply list_elem_of_here.
Defined.

(** ** [_get_unprocessed_scores] *)

Lemma elem_of_processed_report_ids existing rid :
  rid ∈ processed_report_ids existing ↔
  ∃ a, a ∈ existing ∧ texts (fields a) !! "report_id" = Some rid.
Proof.
  unfold processed_report_ids. rewrite elem_of_list_to_set, list_elem_of_omap. done.
Qed.

Lemma elem_of_unprocessed (all_scores existing : list airtable_record) (sd : score_data) :
  sd ∈ _get_unprocessed_scores all_scores existing ↔
  ∃ row rid,
    row ∈ all_scores
    ∧ texts (fields row) !! "report_id" = Some rid
    ∧ rid ≠ ""
    ∧ (∀ a, a ∈ existing → texts (fields a) !! "report_id" ≠ Some rid)
    ∧ sd = unprocessed_entry row rid.
Proof.
  unfold _get_unprocessed_scores. rewrite list_elem_of_omap. split.
  - intros (row & Hrow & Hsd). exists row.
    destruct (texts (fields row) !! "report_id") as [rid|] eqn:Hrid; [|done].
    exists rid.
    destruct (PyStr.nonempty rid) eqn:Hne; [|done].
    destruct (bool_decide (rid ∉ processed_report_ids existing)) eqn:Hp; [|done].
    simpl in Hsd. apply bool_decide_eq_true in Hp. apply nonempty_true in Hne.
    repeat split; try done; [|congruence].
    intros a Ha Heq. apply Hp. apply elem_of_processed_report_ids. by exists a.
  - intros (row & rid & Hrow & Hrid & Hne & Hnew & ->). exists row. split; [done|].
    rewrite Hrid. apply nonempty_true in Hne. rewrite Hne.
    rewrite bool_decide_eq_true_2; [done|].
    intros (a & Ha & Heq)%elem_of_processed_report_ids. by apply (Hnew a).
Qed.

(** X9.  A score record is returned as unprocessed exactly when it comes
    from a score row with a non-empty [report_id] that is the [report_id]
    of no existing assignment.  Rows without a [report_id] are ignored. *)
Theorem unprocessed_iff (all_scores existing : list airtable_record) (sd : score_data) :
  sd ∈ _get_unprocessed_scores all_scores existing ↔
  ∃ row rid,
    row ∈ all_scores
    ∧ texts (fields row) !! "report_id" = Some rid
    ∧ rid ≠ ""
    ∧ (∀ a, a ∈ existing → texts (fields a) !! "report_id" ≠ Some rid)
    ∧ sd = unprocessed_entry row rid.
Proof. apply elem_of_unprocessed. Qed.

(** X10.  More existing assignments leave fewer unprocessed records: the
    result for a larger assignments table is a sub-list, in order, of the
    result for a smaller one. *)
Theorem unprocessed_antitone (all_scores existing existing' : list airtable_record) :
  existing ⊆ existing' →
  _get_unprocessed_scores all_scores existing'
  `sublist_of` _get_unprocessed_scores all_scores existing.
Proof.
  intros Hsub. unfold _get_unprocessed_scores.
  induction all_scores as [|row rows IH]; [done|]. cbn [omap list_omap].
  destruct (texts (fields row) !! "report_id") as [rid|]; [|done].
  destruct (PyStr.nonempty rid); [|done]. cbn [andb].
  destruct (bool_decide (rid ∉ processed_report_ids existing')) eqn:Hp'.
  - apply bool_decide_eq_true in Hp'.
    rewrite bool_decide_eq_true_2; [by apply sublist_skip|].
    intros (a & Ha & Heq)%elem_of_processed_report_ids.
    apply Hp', elem_of_processed_report_ids. exists a. split; [by apply Hsub|done].
  - destruct (bool_decide (rid ∉ processed_report_ids existing));
      [by apply sublist_cons|done].
Qed.

Lemma unprocessed_antitone_witness :
  _get_unprocessed_scores [rice_row; low_row] [rice_assignment]
  `sublist_of` _get_unprocessed_scores [rice_row; low_row] [].
Proof.
  apply (unprocessed_antitone [rice_row; low_row] [] [rice_assignment]).
  intros a Ha. by apply elem_of_nil in Ha.
Defined.

(** X11.  A score row without the score cell of a domain contributes no
    candidate for that domain: the missing score reads as 0, below the
    gate. *)
Theorem missing_score_cell_gated (cat : list intervention) (row : airtable_record)
    (rid dk column dn : string) :
  (dk, column) ∈ score_columns →
  numbers (fields row) !! column = None →
  domain_score (unprocessed_entry row rid) dk == 0 # 1
  ∧ match_domain globals cat (unprocessed_entry row rid) (dk, dn) = [].
Proof.
  intros Hcol Hnone.
  assert (domain_score (unprocessed_entry row rid) dk = 0 # 1) as Hscore.
  { revert dk column Hcol Hnone.
    apply (Forall_pairs (λ dk column,
             numbers (fields row) !! column = None →
             domain_score (unprocessed_entry row rid) dk = 0 # 1)).
    each_domain; intros Hcell;
      match type of Hcell with
      | _ !! ?column = None =>
          change (default (0 # 1) (numbers (fields row) !! column) = 0 # 1)
      end;
      by rewrite Hcell. }
  split; [by rewrite Hscore|].
  unfold match_domain. fold (domain_score (unprocessed_entry row rid) dk).
  by rewrite Hscore.
Qed.

Lemma missing_score_cell_gated_witness :
  domain_score (unprocessed_entry silent_row "R6") "mercury" == 0 # 1
  ∧ match_domain globals [generic_entry] (unprocessed_entry silent_row "R6")
      ("mercury", "Mercury") = [].
Proof.
  apply (missing_score_cell_gated [generic_entry] silent_row "R6" "mercury"
           "mercury_source_score" "Mercury").
  - repeat constructor.
  - reflexivity.
Defined.

(** ** [_load_interventions] *)

Lemma load_lookup records k record :
  records !! k = Some record →
  ∃ i, _load_interventions records !! k = Some i
       ∧ record_id i = c_id record
       ∧ domain i = c_texts (c_fields record) !! "domain"
       ∧ source_category i = get (c_texts (c_fields record)) "source_category" ""
       ∧ priority_rank i = get (c_numbers (c_fields record)) "priority_rank" (5 # 1).
Proof.
  intros Hk. unfold _load_interventions.
  change (@map catalog_record intervention) with (@fmap list _ catalog_record intervention).
  rewrite list_lookup_fmap, Hk. eexists. split; [reflexivity|]. done.
Qed.

(** X12.  A catalog row without a [domain] cell is loaded, at the same
    position and under its record id, as an intervention that the matcher
    never returns. *)
Theorem row_without_domain_unmatched (g : module_globals) (records : list catalog_record)
    (sd : score_data) (k : nat) (record : catalog_record) (m : match_t) :
  records !! k = Some record →
  c_texts (c_fields record) !! "domain" = None →
  m ∈ _match_interventions_for_patient g (_load_interventions records) sd →
  ∃ i, _load_interventions records !! k = Some i
       ∧ record_id i = c_id record
       ∧ m_intervention m ≠ i.
Proof.
  intros Hk Hdom Hm.
  destruct (load_lookup records k record Hk) as (i & Hi & Hid & Hd & _).
  exists i. split; [done|]. split; [done|].
  apply matcher_candidate in Hm as (dk & dn & i' & _ & _ & _ & Ha & _ & ->).
  unfold candidate, m_intervention. cbn [fst]. intros ->.
  rewrite Hd, Hdom in Ha. done.
Qed.

Lemma row_without_domain_unmatched_witness :
  ∃ i, _load_interventions [blank_record; bare_record] !! 0%nat = Some i
       ∧ record_id i = c_id blank_record
       ∧ m_intervention
           (candidate globals rice_data "arsenic" "Arsenic"
              (catalog_entry "recA" "Arsenic" "" 5)) ≠ i.
Proof.
  apply (row_without_domain_unmatched globals [blank_record; bare_record] rice_data
           0%nat blank_record).
  - reflexivity.
  - reflexivity.
  - vm_compute. apply list_elem_of_here.
Defined.

(** X13.  A catalog row with a [domain] cell of a domain whose score passes
    the gate, and with neither a [source_category] nor a [priority_rank]
    cell, is loaded as a generic entry of rank 5: it is appended to
    [matches] with final priority base priority + 3 and a reason without a
    source. *)
Theorem row_defaults_generic_rank5 (g : module_globals) (records : list catalog_record)
    (sd : score_data) (k : nat) (record : catalog_record) (d dk dn : string) :
  records !! k = Some record →
  c_texts (c_fields record) !! "domain" = Some d →
  c_texts (c_fields record) !! "source_category" = None →
  c_numbers (c_fields record) !! "priority_rank" = None →
  (dk, dn) ∈ domain_map →
  normalize d = normalize dn →
  (MODERATE_SCORE_THRESHOLD g <= domain_score sd dk)%Q →
  ∃ m, m ∈ collect_matches g (_load_interventions records) sd
       ∧ record_id (m_intervention m) = c_id record
       ∧ (m_priority m == inject_Z (domain_base_priority g sd dk + 3))%Q
       ∧ m_reason m = justification dn (domain_score sd dk) (domain_conf sd dk) "".
Proof.
  intros Hk Hd Hsc Hrk He Hn Hs.
  destruct (load_lookup records k record Hk) as (i & Hi & Hid & Hdom & Hcat & Hrank).
  unfold get in Hcat, Hrank. rewrite Hsc in Hcat. rewrite Hrk in Hrank.
  rewrite Hd in Hdom. simpl in Hcat, Hrank.
  assert (domain_accepts dn (domain i) = true) as Ha.
  { rewrite Hdom. by apply (domain_accepts_normalize dk dn He). }
  assert (relevance_score (PyStr.lower (source_category i))
            (domain_primary_source sd dk) = 50) as Hrel.
  { apply relevance_score_50. by rewrite Hcat. }
  exists (candidate g sd dk dn i). split; [|split; [done|split]].
  - apply candidate_collected; try done.
    + by apply list_elem_of_lookup_2 in Hi.
    + by rewrite Hrel.
  - unfold candidate, m_priority. cbn [fst snd]. rewrite Hrel, Hrank.
    rewrite (final_priority_integral _ 5) by (by auto).
    change (50 / 50) with 1. apply inject_Z_injective. lia.
  - unfold candidate, m_reason. cbn [snd].
    rewrite reason_string_justification. by rewrite Hcat.
Qed.

Lemma row_defaults_generic_rank5_witness :
  ∃ m, m ∈ collect_matches globals (_load_interventions [blank_record; bare_record])
             rice_data
       ∧ record_id (m_intervention m) = c_id bare_record
       ∧ (m_priority m == inject_Z (domain_base_priority globals rice_data "arsenic" + 3))%Q
       ∧ m_reason m
         = justification "Arsenic" (domain_score rice_data "arsenic")
             (domain_conf rice_data "arsenic") "".
Proof.
  apply (row_defaults_generic_rank5 globals [blank_record; bare_record] rice_data
           1%nat bare_record "Arsenic" "arsenic" "Arsenic").
  - reflexivity.
  - reflexivity.
  - reflexivity.
  - reflexivity.
  - repeat constructor.
  - reflexivity.
  - vm_compute. discriminate.
Defined.

(** ** [_create_intervention_assignments] *)

(** X14.  When every write succeeds, the loop reports as many created rows
    as there are candidates and appends exactly the requested rows, in
    rank order, after the rows already in the table. *)
Theorem all_writes_succeed (create : list assignment_data → assignment_data → bool)
    (pid : option string) (rid date : string) (matched : list match_t)
    (table : list assignment_data) :
  (∀ t a, create t a = true) →
  _create_intervention_assignments create pid rid date matched table
  = (Z.of_nat (length matched), table ++ requested_assignments pid rid date matched).
Proof.
  intros Hok. unfold _create_intervention_assignments.
  rewrite (create_from_all_written create pid rid date matched Hok). f_equal.
Qed.

Lemma all_writes_succeed_witness :
  _create_intervention_assignments (λ _ _, true) (Some "p1") "R1" "2024-01-01"
    [rice_candidate] []
  = (1, requested_assignments (Some "p1") "R1" "2024-01-01" [rice_candidate]).
Proof.
  apply (all_writes_succeed (λ _ _, true) (Some "p1") "R1" "2024-01-01"
           [rice_candidate] []).
  reflexivity.
Defined.

(** X15.  When every write fails, the loop reports 0 created rows and
    leaves the table as it was: the failures are swallowed. *)
Theorem all_writes_fail (create : list assignment_data → assignment_data → bool)
    (pid : option string) (rid date : string) (matched : list match_t)
    (table : list assignment_data) :
  (∀ t a, create t a = false) →
  _create_intervention_assignments create pid rid date matched table = (0, table).
Proof.
  intros Hko. unfold _create_intervention_assignments. generalize 1.
  induction matched as [|m matched IH]; intros idx; [done|].
  cbn [create_from]. by rewrite Hko.
Qed.

Lemma all_writes_fail_witness :
  _create_intervention_assignments (λ _ _, false) (Some "p1") "R1" "2024-01-01"
    [rice_candidate] []
  = (0, []).
Proof.
  apply (all_writes_fail (λ _ _, false) (Some "p1") "R1" "2024-01-01"
           [rice_candidate] []).
  reflexivity.
Defined.

Lemma elem_of_requested_from pid rid date idx matched row :
  row ∈ requested_from pid rid date idx matched →
  ∃ i m, matched !! i = Some m
         ∧ row = make_assignment pid rid date (idx + Z.of_nat i) m.
Proof.
  intros (i & Hi)%list_elem_of_lookup_1.
  apply requested_from_lookup in Hi as (m & Hm & ->). by exists i, m.
Qed.

(** X16.  The rows already in the table are kept, in front and in order;
    every row the loop adds is for the given patient and report, carries the
    status "Not Started", the assignor "Automated" and a tier from 1 to 3,
    and names the record id and the reason of one of the candidates. *)
Theorem written_rows_shape (create : list assignment_data → assignment_data → bool)
    (pid : option string) (rid date : string) (matched : list match_t)
    (table : list assignment_data) :
  let r := _create_intervention_assignments create pid rid date matched table in
  table `prefix_of` r.2
  ∧ ∀ row, row ∈ r.2 →
      row ∈ table
      ∨ (a_patient_id row = pid ∧ a_report_id row = rid ∧ a_assigned_date row = date
         ∧ a_status row = "Not Started" ∧ a_assigned_by row = "Automated"
         ∧ 1 ≤ a_priority row ≤ 3
         ∧ ∃ m, m ∈ matched
                ∧ a_intervention_id row = record_id (m_intervention m)
                ∧ a_practitioner_notes row = m_reason m).
Proof.
  cbn zeta. unfold _create_intervention_assignments.
  destruct (create_from_spec create pid rid date matched 1 table 0)
    as (kept & -> & Hsub).
  cbn [snd]. split; [by apply prefix_app_r|].
  intros row [Hold|Hnew]%elem_of_app; [by left|right].
  apply (sublist_subseteq _ _ Hsub) in Hnew.
  apply elem_of_requested_from in Hnew as (i & m & Hm & ->).
  cbn [make_assignment a_patient_id a_report_id a_assigned_date a_status
         a_assigned_by a_priority a_intervention_id a_practitioner_notes].
  repeat split; try done.
  - unfold priority_tier. repeat (destruct (_ <=? _)); lia.
  - unfold priority_tier. repeat (destruct (_ <=? _)); lia.
  - exists m. split; [by apply list_elem_of_lookup_2 in Hm|done].
Qed.

Lemma written_rows_shape_witness :
  let row := make_assignment (Some "p1") "R1" "2024-01-01" 1 rice_candidate in
  row ∈ []
  ∨ (a_patient_id row = Some "p1" ∧ a_report_id row = "R1"
     ∧ a_assigned_date row = "2024-01-01"
     ∧ a_status row = "Not Started" ∧ a_assigned_by row = "Automated"
     ∧ 1 ≤ a_priority row ≤ 3
     ∧ ∃ m, m ∈ [rice_candidate]
            ∧ a_intervention_id row = record_id (m_intervention m)
            ∧ a_practitioner_notes row = m_reason m).
Proof.
  intros row.
  apply (proj2 (written_rows_shape (λ _ _, true) (Some "p1") "R1" "2024-01-01"
                  [rice_candidate] []) row).
  vm_compute. apply list_elem_of_here.
Defined.

(** ** [process_all_patients] *)

Section ProcessFacts.
Variable create : list assignment_data → assignment_data → bool.
Variable now : nat → string.
Variable g : module_globals.
Variable cat : list intervention.

(** The rows the loop adds: each is for an unprocessed record that has
    candidates, and a record adds at most as many rows as the matcher
    returns. *)
Lemma process_from_spec (unprocessed : list score_data) :
  ∀ k table total,
    ∃ added,
      process_from create now g cat k unprocessed table total
      = (total + Z.of_nat (length added), table ++ added)
      ∧ Forall (λ row, ∃ sd, sd ∈ unprocessed
                             ∧ _match_interventions_for_patient g cat sd ≠ []
                             ∧ a_report_id row = report_id sd
                             ∧ a_patient_id row = patient_id sd) added
      ∧ (length added ≤ MAX_INTERVENTIONS_PER_PATIENT g * length unprocessed)%nat.
Proof.
  induction unprocessed as [|sd rest IH]; intros k table total.
  - exists []. simpl. split; [|split; [constructor|lia]].
    f_equal; [lia|by rewrite app_nil_r].
  - cbn [process_from].
    destruct (_match_interventions_for_patient g cat sd) as [|m0 matched] eqn:Hm.
    + destruct (IH (S k) table total) as (added & -> & Hrows & Hlen).
      exists added. split; [done|]. split.
      * eapply Forall_impl; [exact Hrows|]. intros row (sd' & ? & ?). exists sd'.
        split; [by right|done].
      * simpl. lia.
    + unfold _create_intervention_assignments.
      destruct (create_from_spec create (patient_id sd) (report_id sd) (now k)
                  (m0 :: matched) 1 table 0) as (kept & -> & Hsub).
      cbn [fst snd].
      destruct (IH (S k) (table ++ kept) (total + (0 + Z.of_nat (length kept))))
        as (added & -> & Hrows & Hlen).
      exists (kept ++ added). split; [|split].
      * rewrite length_app, app_assoc. f_equal. lia.
      * apply Forall_app. split.
        -- apply Forall_forall. intros row Hrow.
           apply (sublist_subseteq _ _ Hsub) in Hrow.
           apply elem_of_requested_from in Hrow as (i & m & _ & ->).
           exists sd. split; [left|]. split; [by rewrite Hm|done].
        -- eapply Forall_impl; [exact Hrows|]. intros row (sd' & ? & ?). exists sd'.
           split; [by right|done].
      * apply sublist_length in Hsub.
        assert (length (m0 :: matched) ≤ MAX_INTERVENTIONS_PER_PATIENT g)%nat as Hmax.
        { rewrite <- Hm. unfold _match_interventions_for_patient.
          rewrite length_take. lia. }
        unfold requested_from in Hsub. rewrite length_imap in Hsub.
        rewrite length_app. cbn [length] in *. lia.
Qed.

(** Records without candidates write nothing. *)
Lemma process_from_no_candidates (unprocessed : list score_data) k table total :
  (∀ sd, sd ∈ unprocessed → _match_interventions_for_patient g cat sd = []) →
  process_from create now g cat k unprocessed table total = (total, table).
Proof.
  revert k. induction unprocessed as [|sd rest IH]; intros k Hall; [done|].
  cbn [process_from]. rewrite (Hall sd) by left.
  apply IH. intros sd' Hsd'. apply Hall. by right.
Qed.

(** When every write succeeds, each record with candidates gets a row. *)
Lemma process_from_covers (unprocessed : list score_data) :
  (∀ t a, create t a = true) →
  ∀ k table total sd,
    sd ∈ unprocessed → _match_interventions_for_patient g cat sd ≠ [] →
    ∃ row, row ∈ (process_from create now g cat k unprocessed table total).2
           ∧ a_report_id row = report_id sd.
Proof.
  intros Hok. induction unprocessed as [|sd0 rest IH]; intros k table total sd Hsd Hne.
  - by apply elem_of_nil in Hsd.
  - cbn [process_from].
    destruct (_match_interventions_for_patient g cat sd0) as [|m0 matched] eqn:Hm.
    + apply elem_of_cons in Hsd as [->|Hsd]; [congruence|]. by apply IH.
    + unfold _create_intervention_assignments.
      rewrite (create_from_all_written create _ _ _ (m0 :: matched) Hok).
      cbn [fst snd]. rewrite requested_from_cons.
      apply elem_of_cons in Hsd as [->|Hsd]; [|by apply IH].
      exists (make_assignment (patient_id sd0) (report_id sd0) (now k) 1 m0).
      split; [|done].
      destruct (process_from_spec rest (S k)
                  (table ++ make_assignment (patient_id sd0) (report_id sd0) (now k) 1 m0
                            :: requested_from (patient_id sd0) (report_id sd0) (now k)
                                 (1 + 1) matched)
                  (total + (0 + Z.of_nat (length (m0 :: matched)))))
        as (added & -> & _).
      cbn [snd]. apply elem_of_app. left. apply elem_of_app. right. left.
Qed.

End ProcessFacts.

Lemma unprocessed_length all_scores existing :
  (length (_get_unprocessed_scores all_scores existing) ≤ length all_scores)%nat.
Proof.
  unfold _get_unprocessed_scores.
  induction all_scores as [|row rows IH]; [done|]. cbn [omap list_omap].
  destruct (match texts (fields row) !! "report_id" with
            | Some rid => _ | None => None end); simpl; lia.
Qed.

(** The early return for an empty batch is what the loop gives anyway. *)
Lemma process_all_patients_loop create now g cat all_scores existing :
  process_all_patients create now g cat all_scores existing
  = process_from create now g cat 0
      (_get_unprocessed_scores all_scores existing) [] 0.
Proof.
  unfold process_all_patients.
  by destruct (_get_unprocessed_scores all_scores existing).
Qed.

(** X17.  A run reports exactly the number of rows it wrote, and writes at
    most 10 rows for each score row of the store. *)
Theorem batch_count_and_bound (create : list assignment_data → assignment_data → bool)
    (now : nat → string) (cat : list intervention)
    (all_scores existing : list airtable_record) :
  let r := process_all_patients create now globals cat all_scores existing in
  r.1 = Z.of_nat (length r.2) ∧ (length r.2 ≤ 10 * length all_scores)%nat.
Proof.
  cbn zeta. rewrite process_all_patients_loop.
  destruct (process_from_spec create now globals cat
              (_get_unprocessed_scores all_scores existing) 0%nat [] 0)
    as (added & -> & _ & Hlen).
  cbn [fst snd app]. split; [lia|].
  pose proof (unprocessed_length all_scores existing).
  change (MAX_INTERVENTIONS_PER_PATIENT globals) with 10%nat in Hlen. lia.
Qed.

(** X18.  Every row a run writes is for a score row of the store whose
    [report_id] is not empty and is the [report_id] of no assignment that
    existed when the run started. *)
Theorem writes_only_for_unprocessed (create : list assignment_data → assignment_data → bool)
    (now : nat → string) (g : module_globals) (cat : list intervention)
    (all_scores existing : list airtable_record) (row : assignment_data) :
  row ∈ (process_all_patients create now g cat all_scores existing).2 →
  a_report_id row ≠ ""
  ∧ (∀ a, a ∈ existing → texts (fields a) !! "report_id" ≠ Some (a_report_id row))
  ∧ ∃ score_record,
      score_record ∈ all_scores
      ∧ texts (fields score_record) !! "report_id" = Some (a_report_id row)
      ∧ texts (fields score_record) !! "patient_id" = a_patient_id row.
Proof.
  rewrite process_all_patients_loop.
  destruct (process_from_spec create now g cat
              (_get_unprocessed_scores all_scores existing) 0%nat [] 0)
    as (added & -> & Hrows & _).
  cbn [snd app]. intros Hrow.
  destruct (proj1 (Forall_forall _ _) Hrows row Hrow) as (sd & Hsd & _ & Hrid & Hpid).
  apply elem_of_unprocessed in Hsd as (score_record & rid & Hin & Hcell & Hne & Hnew & ->).
  cbn [unprocessed_entry report_id patient_id] in Hrid, Hpid. rewrite Hrid, Hpid.
  split; [done|]. split; [done|]. by exists score_record.
Qed.

Lemma writes_only_for_unprocessed_witness :
  let row := make_assignment None "R1" "2024-01-01" 1 rice_candidate in
  a_report_id row ≠ ""
  ∧ (∀ a, a ∈ [] → texts (fields a) !! "report_id" ≠ Some (a_report_id row))
  ∧ ∃ score_record,
      score_record ∈ [rice_row]
      ∧ texts (fields score_record) !! "report_id" = Some (a_report_id row)
      ∧ texts (fields score_record) !! "patient_id" = a_patient_id row.
Proof.
  intros row.
  apply (writes_only_for_unprocessed (λ _ _, true) (λ _, "2024-01-01") globals
           [rice_entry] [rice_row] [] row).
  vm_compute. apply list_elem_of_here.
Defined.

Section StoreContract.
(** The record the store returns for a written row; it holds the
    [report_id] it was given. *)
Variable record_of : assignment_data → airtable_record.
Hypothesis record_of_report_id :
  ∀ a, texts (fields (record_of a)) !! "report_id" = Some (a_report_id a).

(** X19.  After a run in which every write succeeds, a second run over the
    same score rows, with the written rows now among the assignments, writes
    nothing: every record that had candidates is processed, and the others
    have none. *)
Theorem second_run_writes_nothing
    (create create' : list assignment_data → assignment_data → bool)
    (now now' : nat → string) (g : module_globals) (cat : list intervention)
    (all_scores existing : list airtable_record) :
  (∀ t a, create t a = true) →
  let r := process_all_patients create now g cat all_scores existing in
  process_all_patients create' now' g cat all_scores (existing ++ map record_of r.2)
  = (0, []).
Proof.
  intros Hok r. rewrite process_all_patients_loop.
  apply process_from_no_candidates. intros sd Hsd.
  apply elem_of_unprocessed in Hsd as (row & rid & Hin & Hcell & Hne & Hnew & ->).
  destruct (_match_interventions_for_patient g cat (unprocessed_entry row rid))
    as [|m0 matched] eqn:Hm; [done|exfalso].
  assert (unprocessed_entry row rid ∈ _get_unprocessed_scores all_scores existing)
    as Hfirst.
  { apply elem_of_unprocessed. exists row, rid. repeat split; try done.
    intros a Ha. apply Hnew, elem_of_app. by left. }
  destruct (process_from_covers create now g cat
              (_get_unprocessed_scores all_scores existing) Hok 0%nat [] 0
              (unprocessed_entry row rid) Hfirst) as (written & Hw & Hrid).
  { by rewrite Hm. }
  rewrite <- process_all_patients_loop in Hw. fold r in Hw.
  apply (Hnew (record_of written)).
  - apply elem_of_app. right. apply list_elem_of_In, in_map, list_elem_of_In, Hw.
  - by rewrite record_of_report_id, Hrid.
Qed.

(** X20.  A record without candidates is never marked: if no unprocessed
    record of its [report_id] has candidates, it is returned as unprocessed
    again after the run. *)
Theorem unmatched_record_stays_unprocessed
    (create : list assignment_data → assignment_data → bool)
    (now : nat → string) (g : module_globals) (cat : list intervention)
    (all_scores existing : list airtable_record) (sd : score_data) :
  sd ∈ _get_unprocessed_scores all_scores existing →
  (∀ sd', sd' ∈ _get_unprocessed_scores all_scores existing →
          report_id sd' = report_id sd →
          _match_interventions_for_patient g cat sd' = []) →
  let r := process_all_patients create now g cat all_scores existing in
  sd ∈ _get_unprocessed_scores all_scores (existing ++ map record_of r.2).
Proof.
  intros Hsd Hnone r.
  pose proof Hsd as Hsd0.
  apply elem_of_unprocessed in Hsd as (row & rid & Hin & Hcell & Hne & Hnew & ->).
  apply elem_of_unprocessed. exists row, rid. repeat split; try done.
  intros a [Ha|Ha]%elem_of_app; [by apply Hnew|].
  apply list_elem_of_In, in_map_iff in Ha as (written & <- & Hw).
  apply list_elem_of_In in Hw. unfold r in Hw.
  rewrite process_all_patients_loop in Hw.
  destruct (process_from_spec create now g cat
              (_get_unprocessed_scores all_scores existing) 0%nat [] 0)
    as (added & Hrun & Hrows & _).
  rewrite Hrun in Hw. cbn [snd app] in Hw.
  destruct (proj1 (Forall_forall _ _) Hrows written Hw) as (sd' & Hsd' & Hcand & Hrid & _).
  rewrite record_of_report_id, Hrid. intros [= Heq].
  apply Hcand, Hnone; [done|]. by rewrite Heq.
Qed.

End StoreContract.

Lemma stored_record_report_id a :
  texts (fields (stored_record a)) !! "report_id" = Some (a_report_id a).
Proof. destruct a as [[pid|] rid iid date tier status by_ notes]; reflexivity. Qed.

Lemma second_run_writes_nothing_witness :
  process_all_patients (λ _ _, false) (λ _, "2024-01-02") globals [rice_entry]
    [rice_row; low_row]
    ([] ++ map stored_record
             (process_all_patients (λ _ _, true) (λ _, "2024-01-01") globals
                [rice_entry] [rice_row; low_row] []).2)
  = (0, []).
Proof.
  apply (second_run_writes_nothing stored_record stored_record_report_id
           (λ _ _, true) (λ _ _, false) (λ _, "2024-01-01") (λ _, "2024-01-02")
           globals [rice_entry] [rice_row; low_row] []).
  reflexivity.
Defined.

Lemma unmatched_record_stays_unprocessed_witness :
  low_data
  ∈ _get_unprocessed_scores [rice_row; low_row]
      ([] ++ map stored_record
               (process_all_patients (λ _ _, true) (λ _, "2024-01-01") globals
                  [rice_entry] [rice_row; low_row] []).2).
Proof.
  apply (unmatched_record_stays_unprocessed stored_record stored_record_report_id
           (λ _ _, true) (λ _, "2024-01-01") globals [rice_entry]
           [rice_row; low_row] [] low_data).
  - vm_compute. apply list_elem_of_further, list_elem_of_here.
  - intros sd' Hin Hrid.
    change (_get_unprocessed_scores [rice_row; low_row] [])
      with [rice_data; low_data] in Hin.
    apply elem_of_cons in Hin as [->|Hin].
    + vm_compute in Hrid. discriminate Hrid.
    + apply list_elem_of_singleton in Hin as ->. vm_compute. reflexivity.
Defined.
